(** * Volume screener: a shallow embedding of [volume_screener.py]

    The script parses a comma-separated ticker list, downloads three months
    of daily bars for the tickers in one batch, derives one metrics row per
    ticker (price, day-over-day change, current volume, 20-day average
    volume, relative volume), sorts the rows by relative volume and colours
    the relative-volume cell by a threshold.

    Modelling conventions.
    - A pandas cell is a [float64]: NaN, an infinity, or a finite number.
      Finite numbers are exact rationals: rounding, overflow and the sign of
      zero are not modelled.  The statements are kept to what does not
      depend on that: which cells an operation of the code is applied to,
      when a result is NaN or an infinity, and how results compare.
    - A data frame is a list of column labels together with its rows, a row
      mapping a label to a cell.  The batch download has either one level of
      column labels (the fields of a single ticker) or two (ticker, field).
    - Python exceptions are values of [exn]; code that may raise returns a
      [result].
    - Text is ASCII: [str.strip] and [str.upper] are modelled on code points
      below 128.
    - The formats of the table are Python's fixed-point presentation,
      applied to the exact value of the cell. *)

From Stdlib Require Import String Ascii List ZArith QArith Lia Bool.
From Stdlib Require Import Permutation Sorted Lqa.
From Stdlib Require Import NArith Qabs Qround DecimalString DecimalN.
Import ListNotations.
Local Open Scope string_scope.
Local Open Scope Z_scope.
Local Open Scope list_scope.

(** ** Exceptions *)

Inductive exn : Type :=
| KeyError
| IndexError
| ValueError.

Inductive result (A : Type) : Type :=
| Ok (a : A)
| Raise (e : exn).
Arguments Ok {A} a.
Arguments Raise {A} e.

Definition bind {A B : Type} (c : result A) (k : A -> result B) : result B :=
  match c with
  | Ok a => k a
  | Raise e => Raise e
  end.

Notation "x <- c ;; k" := (bind c (fun x => k))
  (at level 61, c at next level, right associativity).

(** ** Cells *)

Module Float.

Inductive float64 : Type :=
| NaN
| Inf (negative : bool)
| Fin (q : Q).

Definition Qltb (p q : Q) : bool := negb (Qle_bool q p).

Definition notna (x : float64) : bool :=
  match x with NaN => false | _ => true end.

Definition isna (x : float64) : bool := negb (notna x).

Definition neg (x : float64) : float64 :=
  match x with
  | NaN => NaN
  | Inf s => Inf (negb s)
  | Fin q => Fin (- q)
  end.

Definition add (x y : float64) : float64 :=
  match x, y with
  | NaN, _ | _, NaN => NaN
  | Inf a, Inf b => if Bool.eqb a b then Inf a else NaN
  | Inf a, Fin _ => Inf a
  | Fin _, Inf b => Inf b
  | Fin p, Fin q => Fin (p + q)
  end.

Definition sub (x y : float64) : float64 := add x (neg y).

Definition mul (x y : float64) : float64 :=
  match x, y with
  | NaN, _ | _, NaN => NaN
  | Inf a, Inf b => Inf (xorb a b)
  | Inf a, Fin q | Fin q, Inf a =>
      if Qeq_bool q 0 then NaN else Inf (xorb a (Qltb q 0))
  | Fin p, Fin q => Fin (p * q)
  end.

(** numpy scalars do not raise on a zero divisor: the quotient is an
    infinity, or NaN for 0/0. *)
Definition div (x y : float64) : float64 :=
  match x, y with
  | NaN, _ | _, NaN => NaN
  | Inf _, Inf _ => NaN
  | Inf a, Fin q => Inf (xorb a (Qltb q 0))
  | Fin _, Inf _ => Fin 0
  | Fin p, Fin q =>
      if Qeq_bool q 0
      then (if Qeq_bool p 0 then NaN else Inf (Qltb p 0))
      else Fin (p / q)
  end.

(** [x > y]; any comparison with NaN is false. *)
Definition gt (x y : float64) : bool :=
  match x, y with
  | NaN, _ | _, NaN => false
  | Inf a, Inf b => negb a && b
  | Inf a, Fin _ => negb a
  | Fin _, Inf b => b
  | Fin p, Fin q => Qltb q p
  end.

Definition ge (x y : float64) : bool :=
  match x, y with
  | NaN, _ | _, NaN => false
  | Inf a, Inf b => negb a || b
  | Inf a, Fin _ => negb a
  | Fin _, Inf b => b
  | Fin p, Fin q => Qle_bool q p
  end.

Definition of_nat (n : nat) : float64 := Fin (inject_Z (Z.of_nat n)).

End Float.
Import Float.

(** ** Positional indexing *)

(** Python resolves a slice bound against a length [n]: a negative bound
    counts from the end, and both are clipped to [0, n]. *)
Definition slice_bound (n i : Z) : Z :=
  if i <? 0 then Z.max (i + n) 0 else Z.min i n.

(** [s.iloc[start:stop]] *)
Definition iloc_slice {A : Type} (start stop : Z) (s : list A) : list A :=
  let n := Z.of_nat (length s) in
  let lo := slice_bound n start in
  let hi := slice_bound n stop in
  firstn (Z.to_nat (hi - lo)) (skipn (Z.to_nat lo) s).

(** [s.iloc[i]]: a single position out of bounds raises IndexError. *)
Definition iloc {A : Type} (i : Z) (s : list A) : result A :=
  let n := Z.of_nat (length s) in
  let k := if i <? 0 then i + n else i in
  if (0 <=? k) && (k <? n)
  then match nth_error s (Z.to_nat k) with
       | Some x => Ok x
       | None => Raise IndexError
       end
  else Raise IndexError.

(** ** Series reductions *)

Definition total (values : list float64) : float64 :=
  fold_left add values (Fin 0).

(** [Series.mean()] skips NaN cells; with no cell left the mean is NaN. *)
Definition mean (values : list float64) : float64 :=
  let present := filter notna values in
  match present with
  | [] => NaN
  | _ :: _ => div (total present) (of_nat (length present))
  end.

(** ** Data frames *)

(** A row maps a column label to its cell. *)
Abbreviation row L := (L -> float64).

(** The frame [yf.download] returns.  With one level of labels the columns
    are the fields of one ticker ("Open", "Close", "Volume", ...); with
    [group_by='ticker'] and several tickers the labels are pairs (ticker,
    field), and all tickers share the rows of one date index. *)
Inductive DataFrame : Type :=
| Flat (columns : list string) (rows : list (row string))
| Grouped (columns : list (string * string)) (rows : list (row (string * string))).

(** What an indexing expression may evaluate to. *)
Inductive pandas : Type :=
| Frame (df : DataFrame)
| Series (values : list float64).

Definition has_label (label : string) (columns : list string) : bool :=
  existsb (String.eqb label) columns.

(** The fields found under the top-level label [key]. *)
Definition fields_of (key : string) (columns : list (string * string)) : list string :=
  map snd (filter (fun c => String.eqb (fst c) key) columns).

(** [stock_df[key]] on a flat frame: the cells of one column. *)
Definition column (columns : list string) (rows : list (row string)) (key : string)
  : result (list float64) :=
  if has_label key columns then Ok (map (fun r => r key) rows) else Raise KeyError.

(** [df[key]]: a column of a flat frame, the sub-frame of a ticker in a
    grouped one; KeyError when no column carries the label. *)
Definition getitem (df : DataFrame) (key : string) : result pandas :=
  match df with
  | Flat columns rows =>
      values <- column columns rows key ;;
      Ok (Series values)
  | Grouped columns rows =>
      match fields_of key columns with
      | [] => Raise KeyError
      | fields => Ok (Frame (Flat fields (map (fun r field => r (key, field)) rows)))
      end
  end.

(** [latest_day[key]] on a row of a flat frame. *)
Definition row_getitem (columns : list string) (r : row string) (key : string)
  : result float64 :=
  if has_label key columns then Ok (r key) else Raise KeyError.

(** [dropna(how='all')] keeps the rows with a cell that is not NaN. *)
Definition dropna_all {L : Type} (columns : list L) (rows : list (row L)) : list (row L) :=
  filter (fun r => existsb (fun c => notna (r c)) columns) rows.

(** [.empty]: one of the two axes has length 0. *)
Definition empty {L R : Type} (columns : list L) (rows : list R) : bool :=
  (Nat.eqb (length rows) 0) || (Nat.eqb (length columns) 0).

(** ** The metrics row *)

Record MetricsRow : Type := mkRow {
  Ticker : string;
  Price : float64;
  Change_pct : float64;
  Current_Vol : float64;
  Avg_Vol_20D : float64;
  RVol : float64
}.

(** Line 62: the mean of the slice [-21:-1] of the volume column. *)
Definition avg_vol_20d (volume : list float64) : float64 :=
  mean (iloc_slice (-21) (-1) volume).

(** Lines 65-68. *)
Definition relative_volume (current_vol avg : float64) : float64 :=
  if gt avg (Fin 0) then div current_vol avg else Fin 0.

(** Line 72. *)
Definition pct_change (current_price prev_close : float64) : float64 :=
  mul (div (sub current_price prev_close) prev_close) (Fin 100).

(** Lines 50-81 on the flat frame of one ticker.  [Ok None] is the
    [continue] taken for an empty frame. *)
Definition metrics (ticker : string) (columns : list string) (rows : list (row string))
  : result (option MetricsRow) :=
  let rows := dropna_all columns rows in
  if empty columns rows then Ok None else
  latest_day <- iloc (-1) rows ;;
  current_vol <- row_getitem columns latest_day "Volume" ;;
  current_price <- row_getitem columns latest_day "Close" ;;
  volume <- column columns rows "Volume" ;;
  let avg := avg_vol_20d volume in
  let rvol := relative_volume current_vol avg in
  close <- column columns rows "Close" ;;
  prev_close <- iloc (-2) close ;;
  Ok (Some (mkRow ticker current_price (pct_change current_price prev_close)
                  current_vol avg rvol)).

(** The same lines when [stock_df] is a column of a flat frame (several
    tickers requested, one-level frame received, and the ticker names one of
    its columns).  [Series.dropna] drops the NaN cells; [iloc[-1]] is then a
    scalar, and indexing a scalar with 'Volume' raises IndexError. *)
Definition metrics_of_series (values : list float64) : result (option MetricsRow) :=
  let values := filter notna values in
  if Nat.eqb (length values) 0 then Ok None else Raise IndexError.

(** The same lines when [stock_df] is the whole grouped frame (one ticker
    requested, two-level frame received).  'Volume' and 'Close' are looked
    up among the top-level labels; if both are there the average is a Series
    and its truth value in the [if] raises ValueError. *)
Definition metrics_of_grouped (columns : list (string * string))
    (rows : list (row (string * string))) : result (option MetricsRow) :=
  let rows := dropna_all columns rows in
  if empty columns rows then Ok None else
  match fields_of "Volume" columns, fields_of "Close" columns with
  | [], _ | _, [] => Raise KeyError
  | _ :: _, _ :: _ => Raise ValueError
  end.

(** Lines 44-47. *)
Definition select (ticker_list : list string) (df : DataFrame) (ticker : string)
  : result pandas :=
  if (1 <? length ticker_list)%nat then getitem df ticker else Ok (Frame df).

(** The body of the [try] for one ticker. *)
Definition body (ticker_list : list string) (df : DataFrame) (ticker : string)
  : result (option MetricsRow) :=
  stock_df <- select ticker_list df ticker ;;
  match stock_df with
  | Frame (Flat columns rows) => metrics ticker columns rows
  | Frame (Grouped columns rows) => metrics_of_grouped columns rows
  | Series values => metrics_of_series values
  end.

(** The [for] loop: [todo] are the tickers still to visit and [data] the rows
    appended so far.  KeyError is caught and the loop continues; any other
    exception leaves the function. *)
Fixpoint loop (ticker_list : list string) (df : DataFrame)
    (todo : list string) (data : list MetricsRow) : result (list MetricsRow) :=
  match todo with
  | [] => Ok data
  | ticker :: rest =>
      match body ticker_list df ticker with
      | Ok (Some r) => loop ticker_list df rest (data ++ [r])
      | Ok None => loop ticker_list df rest data
      | Raise KeyError => loop ticker_list df rest data
      | Raise e => Raise e
      end
  end.

(** What the call of [yf.download] does: it raises an exception, given here
    by its message, or returns a frame. *)
Inductive download : Type :=
| Raises (message : string)
| Returns (df : DataFrame).

(** What [get_volume_data] leaves behind: the messages passed to [st.error]
    and the returned rows, or the exception that escaped. *)
Record outcome : Type := mkOutcome {
  errors : list string;
  value : result (list MetricsRow)
}.

Definition get_volume_data (ticker_list : list string) (fetched : download) : outcome :=
  match fetched with
  | Raises e => mkOutcome [("Error fetching data: " ++ e)%string] (Ok [])
  | Returns df => mkOutcome [] (loop ticker_list df ticker_list [])
  end.

(** ** Parsing the ticker list (line 23) *)

Module Text.

Definition is_comma (c : ascii) : bool := Ascii.eqb c ","%char.

(** The ASCII characters [str.strip] removes: tab, line feed, vertical tab,
    form feed, carriage return, the four separators 28-31 and the space. *)
Definition is_space (c : ascii) : bool :=
  let n := nat_of_ascii c in
  ((9 <=? n) && (n <=? 13) || (28 <=? n) && (n <=? 32))%nat.

Definition is_lower (c : ascii) : bool :=
  let n := nat_of_ascii c in ((97 <=? n) && (n <=? 122))%nat.

Definition upper_char (c : ascii) : ascii :=
  if is_lower c then ascii_of_nat (nat_of_ascii c - 32) else c.

(** [s.split(",")]: always at least one piece. *)
Fixpoint split (s : string) : list string :=
  match s with
  | EmptyString => [EmptyString]
  | String c rest =>
      if is_comma c then EmptyString :: split rest
      else match split rest with
           | [] => [String c EmptyString]
           | piece :: pieces => String c piece :: pieces
           end
  end.

Fixpoint lstrip (s : string) : string :=
  match s with
  | EmptyString => EmptyString
  | String c rest => if is_space c then lstrip rest else s
  end.

Fixpoint rstrip (s : string) : string :=
  match s with
  | EmptyString => EmptyString
  | String c rest =>
      match rstrip rest with
      | EmptyString => if is_space c then EmptyString else String c EmptyString
      | kept => String c kept
      end
  end.

(** [s.strip()] *)
Definition strip (s : string) : string := rstrip (lstrip s).

(** [s.upper()] *)
Fixpoint upper (s : string) : string :=
  match s with
  | EmptyString => EmptyString
  | String c rest => String (upper_char c) (upper rest)
  end.

(** Truth value of a string: it is not empty. *)
Definition truthy (s : string) : bool :=
  match s with EmptyString => false | String _ _ => true end.

(** Every character of [s] satisfies [p]. *)
Fixpoint all (p : ascii -> bool) (s : string) : bool :=
  match s with
  | EmptyString => true
  | String c rest => p c && all p rest
  end.

Definition is_ascii (s : string) : bool :=
  all (fun c => (nat_of_ascii c <? 128)%nat) s.

Definition starts_with_space (s : string) : bool :=
  match s with
  | EmptyString => false
  | String c _ => is_space c
  end.

Fixpoint ends_with_space (s : string) : bool :=
  match s with
  | EmptyString => false
  | String c EmptyString => is_space c
  | String _ rest => ends_with_space rest
  end.

End Text.

(** [[x.strip().upper() for x in ticker_input.split(",") if x.strip()]] *)
Definition tickers (ticker_input : string) : list string :=
  flat_map (fun x => if Text.truthy (Text.strip x)
                     then [Text.upper (Text.strip x)] else [])
           (Text.split ticker_input).

(** ** Highlighting (lines 103-106) *)

Definition highlight_color (vol_threshold : Q) (val : float64) : string :=
  let color := if gt val (Fin vol_threshold) then "lightgreen" else "white" in
  if gt val (Fin (vol_threshold * 2)) then "#ffcccb" else color.

Definition highlight_spike (vol_threshold : Q) (val : float64) : string :=
  ("background-color: " ++ highlight_color vol_threshold val ++ "; color: black")%string.

(** The three tiers and the colour that shows each. *)
Inductive tier : Type := normal | elevated | spike.

Definition tier_color (t : tier) : string :=
  match t with
  | normal => "white"
  | elevated => "lightgreen"
  | spike => "#ffcccb"
  end.

(** ** Sorting the results (line 100) *)

(** [results.sort_values(by="RVol", ascending=False)] leaves the sort
    algorithm at its default, 'quicksort': pandas sets the rows with a NaN
    key aside, hands the other keys to numpy's argsort in reversed order,
    reverses what comes back and puts the NaN rows last.  The numpy kernel
    is a parameter here: [argsort l] is the list [l] in the ascending order
    the kernel found. *)
Section SortValues.

Variable argsort : list MetricsRow -> list MetricsRow.

Definition sort_values (results : list MetricsRow) : list MetricsRow :=
  let non_nans := filter (fun r => notna (RVol r)) results in
  let nans := filter (fun r => isna (RVol r)) results in
  rev (argsort (rev non_nans)) ++ nans.

(** What the page shows under the title (lines 94-130): the prompt for an
    empty ticker list, the notice that no data was found, or the table of
    the sorted rows, each with the style of its RVol cell. *)
Inductive view : Type :=
| Prompt (text : string)
| Notice (text : string)
| Table (rows : list (MetricsRow * string)).

Record page : Type := mkPage {
  shown_errors : list string;
  shown : result view
}.

Definition main (ticker_input : string) (vol_threshold : Q) (fetched : download) : page :=
  match tickers ticker_input with
  | [] => mkPage [] (Ok (Prompt "Enter tickers in the sidebar to begin."))
  | (_ :: _) as tickers =>
      let results := get_volume_data tickers fetched in
      mkPage (errors results)
        (results <- value results ;;
         match results with
         | [] => Ok (Notice "No data found. Please check ticker symbols.")
         | _ :: _ =>
             let results := sort_values results in
             Ok (Table (map (fun r => (r, highlight_spike vol_threshold (RVol r)))
                            results))
         end)
  end.

End SortValues.

(** Every element stands in relation [R] to the next one. *)
Fixpoint chain {A : Type} (R : A -> A -> bool) (l : list A) : bool :=
  match l with
  | a :: (b :: _) as rest => R a b && chain R rest
  | _ => true
  end.

(** RVol does not decrease / does not increase along the rows. *)
Definition ascending (rows : list MetricsRow) : bool :=
  chain (fun a b => ge (RVol b) (RVol a)) rows.

Definition descending (rows : list MetricsRow) : bool :=
  chain (fun a b => ge (RVol a) (RVol b)) rows.

(** What can be relied on of the kernel: on rows without NaN key it returns
    the same rows in ascending order of the key. *)
Definition sorting_kernel (argsort : list MetricsRow -> list MetricsRow) : Prop :=
  forall rows,
    Forall (fun r => notna (RVol r) = true) rows ->
    Permutation rows (argsort rows) /\ ascending (argsort rows) = true.





(** A kernel to exercise the statements with: insertion sort, ascending by
    RVol, each row going in front of the first row already placed whose key
    is greater. *)
Fixpoint insert (r : MetricsRow) (sorted : list MetricsRow) : list MetricsRow :=
  match sorted with
  | [] => [r]
  | h :: t =>
      if gt (RVol h) (RVol r) then r :: h :: t
      else h :: insert r t
  end.

Definition argsort_behind_ties (rows : list MetricsRow) : list MetricsRow :=
  fold_left (fun sorted r => insert r sorted) rows [].

(** ** Notions used in the statements *)

(** The average is zero or undefined. *)
Definition zero_or_undefined (avg : float64) : Prop :=
  avg = NaN \/ exists q, avg = Fin q /\ (q == 0)%Q.

(** A ticker without data: [df[ticker]] raises KeyError, or the frame found
    for it lacks the 'Volume' or the 'Close' column, or no row of that frame
    is left once the rows with only NaN cells are dropped. *)
Inductive no_data (ticker_list : list string) (df : DataFrame) (ticker : string) : Prop :=
| absent :
    select ticker_list df ticker = Raise KeyError ->
    no_data ticker_list df ticker
| malformed (columns : list string) (rows : list (row string)) :
    select ticker_list df ticker = Ok (Frame (Flat columns rows)) ->
    has_label "Volume" columns = false \/ has_label "Close" columns = false ->
    no_data ticker_list df ticker
| empty_series (columns : list string) (rows : list (row string)) :
    select ticker_list df ticker = Ok (Frame (Flat columns rows)) ->
    dropna_all columns rows = [] ->
    no_data ticker_list df ticker.

(** [l1] is [l2] with some elements left out. *)
Inductive subsequence {A : Type} : list A -> list A -> Prop :=
| subsequence_nil : subsequence [] []
| subsequence_skip (x : A) (l1 l2 : list A) :
    subsequence l1 l2 -> subsequence l1 (x :: l2)
| subsequence_keep (x : A) (l1 l2 : list A) :
    subsequence l1 l2 -> subsequence (x :: l1) (x :: l2).

(** The parse in the words of the specification: the comma-separated
    entries, each trimmed, then upper-cased, the empty ones dropped. *)
Definition trimmed_upper_entries (ticker_input : string) : list string :=
  filter Text.truthy (map Text.upper (map Text.strip (Text.split ticker_input))).

(** ** Sample data *)

(** Sample frames used to exercise the statements below: a flat frame with
    the two columns the code reads, whose rows are given by volume and
    close. *)
Definition bar (volume close : Q) : row string :=
  fun label =>
    if String.eqb label "Volume" then Fin volume
    else if String.eqb label "Close" then Fin close
    else NaN.

Definition no_bar : row string := fun _ => NaN.

Definition sample_columns : list string := ["Close"; "Volume"].

(** Twenty bars of volume 2,000,000 and close 10, between an older bar and
    a latest bar of volume 5,000,000. *)
Definition sample_window : list (row string) := repeat (bar 2000000 10) 20.

Definition sample_series : list (row string) :=
  [bar 7 9; no_bar] ++ sample_window ++ [bar 5000000 11].

(** The sample batch: tickers AAA, BBB and CCC were requested; the frame has
    the columns of AAA and BBB only, and no cell of BBB is filled. *)
Definition sample_index : list (row (string * string)) :=
  map (fun vc : Q * Q => fun label : string * string =>
         if String.eqb (fst label) "AAA" then bar (fst vc) (snd vc) (snd label)
         else NaN)
      [(10, 1); (20, 2); (60, 3)]%Q.

Definition sample_batch : DataFrame :=
  Grouped [("AAA", "Close"); ("AAA", "Volume"); ("BBB", "Close"); ("BBB", "Volume")]
          sample_index.

(** A batch in which NEW has its first bar on the latest day: its cells are
    NaN on the earlier days. *)
Definition first_day_index : list (row (string * string)) :=
  map (fun vc : Q * Q => fun label : string * string =>
         if String.eqb (fst label) "AAA" then bar (fst vc) (snd vc) (snd label)
         else NaN)
      [(10, 1); (20, 2)]%Q ++
  [fun label : string * string =>
     if String.eqb (fst label) "AAA" then bar 60 3 (snd label)
     else bar 500 7 (snd label)].

Definition first_day_batch : DataFrame :=
  Grouped [("AAA", "Close"); ("AAA", "Volume"); ("NEW", "Close"); ("NEW", "Volume")]
          first_day_index.





(** ** Display formats (lines 117-123) *)

(** Python's fixed-point presentation of a float, as the format strings of
    the table use it: sign, optional thousands separators, [precision]
    digits after the point, the value rounded to nearest with ties to the
    even digit.  NaN and the infinities are spelled out. *)
Module Format.

(** The decimal digits of a natural number. *)
Definition digits (n : N) : string := NilEmpty.string_of_uint (N.to_uint n).

(** A comma in front of every group of three digits counted from the
    right. *)
Fixpoint group (s : string) : string :=
  match s with
  | EmptyString => EmptyString
  | String c rest =>
      String c
        (if negb (Nat.eqb (String.length rest) 0)
            && Nat.eqb (String.length rest mod 3) 0
         then String ","%char (group rest)
         else group rest)
  end.

Fixpoint zeros (n : nat) : string :=
  match n with
  | O => EmptyString
  | S n' => String "0"%char (zeros n')
  end.

Definition zero_pad (width : nat) (s : string) : string :=
  (zeros (width - String.length s) ++ s)%string.

(** Rounding to the nearest integer, a tie going to the even one. *)
Definition round_half_even (x : Q) : Z :=
  let below := Qfloor x in
  match Qcompare (x - inject_Z below) (1 # 2) with
  | Lt => below
  | Gt => below + 1
  | Eq => if Z.even below then below else below + 1
  end.

Definition sign (plus negative : bool) : string :=
  if negative then "-" else if plus then "+" else "".

(** [format(x, "[+][,].<precision>f")] *)
Definition fixed (plus comma : bool) (precision : nat) (x : float64) : string :=
  match x with
  | NaN => (sign plus false ++ "nan")%string
  | Inf negative => (sign plus negative ++ "inf")%string
  | Fin q =>
      let scale := 10 ^ Z.of_nat precision in
      let scaled := Z.to_N (round_half_even (Qabs q * inject_Z scale)) in
      let whole := digits (scaled / Z.to_N scale) in
      let fraction := zero_pad precision (digits (scaled mod Z.to_N scale)) in
      (sign plus (Qltb q 0)
       ++ (if comma then group whole else whole)
       ++ match precision with
          | O => EmptyString
          | S _ => String "."%char fraction
          end)%string
  end.

End Format.

(** The formats of the five numeric columns. *)
Definition format_price (x : float64) : string :=
  ("$" ++ Format.fixed false false 2 x)%string.

Definition format_change (x : float64) : string :=
  (Format.fixed true false 2 x ++ "%")%string.

Definition format_volume (x : float64) : string :=
  Format.fixed false true 0 x.

Definition format_rvol (x : float64) : string :=
  (Format.fixed false false 2 x ++ "x")%string.

(** The cells of a row as the table displays them, by column. *)
Definition display (r : MetricsRow) : list (string * string) :=
  [ ("Ticker", Ticker r);
    ("Price", format_price (Price r));
    ("Change %", format_change (Change_pct r));
    ("Current Vol", format_volume (Current_Vol r));
    ("Avg Vol (20D)", format_volume (Avg_Vol_20D r));
    ("RVol", format_rvol (RVol r)) ].

(** ** Notions used in the further properties *)

(** The rows one ticker adds to [data]: the row of its iteration, if any. *)
Definition emitted (ticker_list : list string) (df : DataFrame) (ticker : string)
  : list MetricsRow :=
  match body ticker_list df ticker with
  | Ok (Some r) => [r]
  | _ => []
  end.

(** The iteration of a ticker is left by an exception the handler does not
    catch. *)
Definition escapes (ticker_list : list string) (df : DataFrame) (ticker : string)
  : bool :=
  match body ticker_list df ticker with
  | Raise IndexError | Raise ValueError => true
  | _ => false
  end.

(** A ticker symbol in the form the parser delivers: not empty, no
    whitespace at either end, no lower-case letter, no comma. *)
Definition is_symbol (t : string) : bool :=
  Text.truthy t &&
  negb (Text.starts_with_space t) && negb (Text.ends_with_space t) &&
  Text.all (fun c => negb (Text.is_lower c)) t &&
  Text.all (fun c => negb (Text.is_comma c)) t.

(** Reading a displayed count back: the commas are dropped and the rest is
    read as a decimal number. *)
Fixpoint remove_commas (s : string) : string :=
  match s with
  | EmptyString => EmptyString
  | String c rest =>
      if Text.is_comma c then remove_commas rest else String c (remove_commas rest)
  end.

Definition read_count (s : string) : option N :=
  option_map N.of_uint (NilEmpty.uint_of_string (remove_commas s)).

(** Two frames with two levels of labels hold the same cells for a
    ticker: row by row, every field of the ticker has the same cell. *)
Definition same_cells_for (ticker : string)
    (rows rows' : list (row (string * string))) : Prop :=
  Forall2 (fun r r' => forall field, r (ticker, field) = r' (ticker, field)) rows rows'.

(** * Properties *)

(** ** The trailing window *)

Lemma slice_bound_start (n : nat) :
  Z.to_nat (slice_bound (Z.of_nat (n + 1)) (-21)) = (n - 20)%nat.
Proof. unfold slice_bound; change (-21 <? 0) with true; cbv iota; lia. Qed.

Lemma slice_bound_stop (n : nat) :
  slice_bound (Z.of_nat (n + 1)) (-1) = Z.of_nat n.
Proof. unfold slice_bound; change (-1 <? 0) with true; cbv iota; lia. Qed.

(** On a series with a last element, the slice [-21:-1] is what is left of
    the elements before the last one after all but 20 are skipped. *)
Lemma iloc_slice_before_last {A : Type} (prior : list A) (latest : A) :
  iloc_slice (-21) (-1) (prior ++ [latest]) = skipn (length prior - 20) prior.
Proof.
  unfold iloc_slice.
  rewrite length_app; simpl length.
  pose proof (slice_bound_start (length prior)) as Hlo.
  rewrite slice_bound_stop.
  set (lo := slice_bound (Z.of_nat (length prior + 1)) (-21)) in *.
  assert (Hlo0 : 0 <= lo)
    by (unfold lo, slice_bound; change (-21 <? 0) with true; cbv iota; lia).
  replace (Z.to_nat (Z.of_nat (length prior) - lo))
    with (length prior - (length prior - 20))%nat by lia.
  rewrite Hlo.
  rewrite skipn_app.
  replace (length prior - 20 - length prior)%nat with 0%nat by lia.
  simpl skipn at 2.
  rewrite firstn_app.
  rewrite length_skipn.
  replace (length prior - (length prior - 20) - (length prior - (length prior - 20)))%nat
    with 0%nat by lia.
  rewrite firstn_O, app_nil_r.
  apply firstn_all2.
  rewrite length_skipn; lia.
Qed.



(** ** The mean of numeric cells *)

Lemma filter_notna_Fin (vs : list Q) :
  filter notna (map Fin vs) = map Fin vs.
Proof. induction vs as [|v vs IH]; simpl; [reflexivity | now rewrite IH]. Qed.

Lemma mean_nil : mean [] = NaN.
Proof. reflexivity. Qed.

(** ** Single positions *)

Lemma iloc_last {A : Type} (prior : list A) (latest : A) :
  iloc (-1) (prior ++ [latest]) = Ok latest.
Proof.
  unfold iloc. rewrite length_app; simpl length.
  change (-1 <? 0) with true; cbv iota.
  replace (-1 + Z.of_nat (length prior + 1)) with (Z.of_nat (length prior)) by lia.
  rewrite Nat2Z.id.
  replace ((0 <=? Z.of_nat (length prior)) &&
           (Z.of_nat (length prior) <? Z.of_nat (length prior + 1))) with true
    by (symmetry; apply andb_true_iff; split; [apply Z.leb_le | apply Z.ltb_lt]; lia).
  rewrite nth_error_app2 by lia.
  rewrite Nat.sub_diag. reflexivity.
Qed.

Lemma iloc_previous {A : Type} (before : list A) (previous latest : A) :
  iloc (-2) (before ++ [previous; latest]) = Ok previous.
Proof.
  unfold iloc. rewrite length_app; simpl length.
  change (-2 <? 0) with true; cbv iota.
  replace (-2 + Z.of_nat (length before + 2)) with (Z.of_nat (length before)) by lia.
  rewrite Nat2Z.id.
  replace ((0 <=? Z.of_nat (length before)) &&
           (Z.of_nat (length before) <? Z.of_nat (length before + 2))) with true
    by (symmetry; apply andb_true_iff; split; [apply Z.leb_le | apply Z.ltb_lt]; lia).
  rewrite nth_error_app2 by lia.
  rewrite Nat.sub_diag. reflexivity.
Qed.

Lemma iloc_previous_missing {A : Type} (only : A) :
  iloc (-2) [only] = Raise IndexError.
Proof. reflexivity. Qed.

(** ** The metrics of one cleaned series *)

Lemma has_label_nonempty (label : string) (columns : list string) :
  has_label label columns = true -> Nat.eqb (length columns) 0 = false.
Proof. destruct columns; simpl; [discriminate | reflexivity]. Qed.

(** With both columns present and a cleaned series ending in [latest], the
    only step of [metrics] left open is the previous close. *)
Lemma metrics_cleaned (ticker : string) (columns : list string)
    (raw prior : list (row string)) (latest : row string) :
  dropna_all columns raw = prior ++ [latest] ->
  has_label "Volume" columns = true ->
  has_label "Close" columns = true ->
  metrics ticker columns raw =
    (prev_close <- iloc (-2) (map (fun r => r "Close") (prior ++ [latest])) ;;
     let avg := avg_vol_20d (map (fun r => r "Volume") (prior ++ [latest])) in
     Ok (Some (mkRow ticker (latest "Close")
                     (pct_change (latest "Close") prev_close)
                     (latest "Volume") avg
                     (relative_volume (latest "Volume") avg)))).
Proof.
  intros Hclean Hvol Hclose.
  unfold metrics. rewrite Hclean.
  unfold empty. rewrite length_app; simpl length.
  replace (Nat.eqb (length prior + 1) 0) with false
    by (symmetry; apply Nat.eqb_neq; lia).
  rewrite (has_label_nonempty _ _ Hvol). cbv beta iota. simpl orb. cbv iota.
  rewrite iloc_last. unfold row_getitem, column.
  rewrite Hvol, Hclose. reflexivity.
Qed.

(** Every row [metrics] emits carries the ticker it was asked for, and its
    relative volume is the one of lines 65-68. *)
Lemma metrics_row (ticker : string) (columns : list string)
    (raw : list (row string)) (r : MetricsRow) :
  metrics ticker columns raw = Ok (Some r) ->
  Ticker r = ticker /\
  Avg_Vol_20D r = avg_vol_20d (map (fun x => x "Volume") (dropna_all columns raw)) /\
  RVol r = relative_volume (Current_Vol r) (Avg_Vol_20D r).
Proof.
  unfold metrics.
  destruct (empty columns (dropna_all columns raw)); [discriminate|].
  destruct (iloc (-1) (dropna_all columns raw)) as [latest|]; [|discriminate].
  unfold row_getitem, column.
  destruct (has_label "Volume" columns); [|discriminate].
  destruct (has_label "Close" columns); [|discriminate].
  simpl bind.
  destruct (iloc (-2) (map (fun x => x "Close") (dropna_all columns raw)));
    [|discriminate].
  simpl bind. intros H; injection H as <-. simpl. auto.
Qed.

Lemma metrics_of_grouped_no_row (columns : list (string * string))
    (rows : list (row (string * string))) (r : MetricsRow) :
  metrics_of_grouped columns rows <> Ok (Some r).
Proof.
  unfold metrics_of_grouped.
  destruct (empty columns (dropna_all columns rows)); [discriminate|].
  destruct (fields_of "Volume" columns); [discriminate|].
  destruct (fields_of "Close" columns); discriminate.
Qed.

Lemma metrics_of_series_no_row (values : list float64) (r : MetricsRow) :
  metrics_of_series values <> Ok (Some r).
Proof.
  unfold metrics_of_series.
  destruct (Nat.eqb (length (filter notna values)) 0); discriminate.
Qed.

(** A row comes out of the body only through [metrics]. *)
Lemma body_row (ticker_list : list string) (df : DataFrame) (ticker : string)
    (r : MetricsRow) :
  body ticker_list df ticker = Ok (Some r) ->
  Ticker r = ticker /\ RVol r = relative_volume (Current_Vol r) (Avg_Vol_20D r).
Proof.
  unfold body.
  destruct (select ticker_list df ticker) as [[[columns rows|columns rows]|values]|e];
    simpl bind; intros H.
  - apply metrics_row in H. tauto.
  - now apply metrics_of_grouped_no_row in H.
  - now apply metrics_of_series_no_row in H.
  - discriminate.
Qed.

(** The rows the loop returns are the rows it started with followed by rows
    the body emitted for tickers still to visit. *)
Lemma loop_rows (ticker_list : list string) (df : DataFrame) (todo : list string) :
  forall data rows,
    loop ticker_list df todo data = Ok rows ->
    forall r, In r rows ->
      In r data \/ exists t, In t todo /\ body ticker_list df t = Ok (Some r).
Proof.
  induction todo as [|t todo IH]; intros data rows Hloop r Hin; simpl in Hloop.
  - injection Hloop as <-. now left.
  - destruct (body ticker_list df t) as [[r0|]|e] eqn:Hbody.
    + destruct (IH _ _ Hloop r Hin) as [Hdata|[t' [Ht' Hb]]].
      * apply in_app_or in Hdata. destruct Hdata as [Hd|[<-|[]]].
        -- now left.
        -- right. exists t. split; [now left | exact Hbody].
      * right. exists t'. split; [now right | exact Hb].
    + destruct (IH _ _ Hloop r Hin) as [Hdata|[t' [Ht' Hb]]].
      * now left.
      * right. exists t'. split; [now right | exact Hb].
    + destruct e; try discriminate.
      destruct (IH _ _ Hloop r Hin) as [Hdata|[t' [Ht' Hb]]].
      * now left.
      * right. exists t'. split; [now right | exact Hb].
Qed.

Lemma get_volume_data_rows (ticker_list : list string) (fetched : download)
    (rows : list MetricsRow) (r : MetricsRow) :
  value (get_volume_data ticker_list fetched) = Ok rows ->
  In r rows ->
  exists t, In t ticker_list /\
    match fetched with
    | Raises _ => False
    | Returns df => body ticker_list df t = Ok (Some r)
    end.
Proof.
  destruct fetched as [e|df]; simpl; intros Hv Hin.
  - injection Hv as <-. destruct Hin.
  - destruct (loop_rows _ _ _ _ _ Hv r Hin) as [[]|H]. exact H.
Qed.

(** A series of at least 21 bars: older bars, the 20 bars before the latest
    one, and the latest bar. *)
Lemma at_least_21_bars {A : Type} (bars : list A) :
  (21 <= length bars)%nat ->
  exists pre window latest,
    bars = pre ++ window ++ [latest] /\ length window = 20%nat.
Proof.
  intros Hlen.
  assert (Hne : bars <> []) by (intros ->; simpl in Hlen; lia).
  destruct (exists_last Hne) as [prior [latest ->]].
  rewrite length_app in Hlen; simpl in Hlen.
  exists (firstn (length prior - 20) prior), (skipn (length prior - 20) prior), latest.
  split.
  - now rewrite app_assoc, firstn_skipn.
  - rewrite length_skipn. lia.
Qed.





Lemma gt_zero_or_undefined (avg : float64) :
  zero_or_undefined avg -> gt avg (Fin 0) = false.
Proof.
  intros [->|[q [-> Hq]]]; [reflexivity|].
  unfold gt, Qltb. apply negb_false_iff. apply Qle_bool_iff.
  rewrite Hq. apply Qle_refl.
Qed.

(** C2: with an average volume that is zero or NaN the comparison
    [avg_vol_20d > 0] is false, so the division is not reached and the
    relative volume is the number 0, whatever the current volume; every row
    of the output built from such an average has RVol 0. *)
Theorem relative_volume_zero_without_average (current_vol avg : float64) :
  zero_or_undefined avg ->
  relative_volume current_vol avg = Fin 0 /\
  forall ticker_list fetched rows r,
    value (get_volume_data ticker_list fetched) = Ok rows ->
    In r rows ->
    Avg_Vol_20D r = avg ->
    RVol r = Fin 0.
Proof.
  intros Havg. unfold relative_volume.
  rewrite (gt_zero_or_undefined avg Havg). split; [reflexivity|].
  intros ticker_list fetched rows r Hv Hin Hr.
  destruct (get_volume_data_rows _ _ _ _ Hv Hin) as [t [_ Hb]].
  destruct fetched as [e|df]; [destruct Hb|].
  apply body_row in Hb. destruct Hb as [_ ->].
  unfold relative_volume. rewrite Hr, (gt_zero_or_undefined avg Havg). reflexivity.
Qed.

Lemma relative_volume_zero_without_average_witness :
  relative_volume (Fin 5000000) (Fin 0) = Fin 0 /\
  forall ticker_list fetched rows r,
    value (get_volume_data ticker_list fetched) = Ok rows ->
    In r rows ->
    Avg_Vol_20D r = Fin 0 ->
    RVol r = Fin 0.
Proof.
  apply (relative_volume_zero_without_average (Fin 5000000) (Fin 0)).
  right. exists 0%Q. split; reflexivity.
Defined.

(** ** Highlight tiers *)

Lemma Qltb_true (p q : Q) : Qltb p q = true <-> (p < q)%Q.
Proof.
  unfold Qltb. rewrite negb_true_iff. split.
  - intros H. apply Qnot_le_lt. intros Hle.
    apply Qle_bool_iff in Hle. congruence.
  - intros H. destruct (Qle_bool q p) eqn:E; [|reflexivity].
    apply Qle_bool_iff in E. exfalso. apply (Qlt_not_le _ _ H E).
Qed.

Lemma Qltb_false (p q : Q) : Qltb p q = false <-> (q <= p)%Q.
Proof.
  unfold Qltb. rewrite negb_false_iff. apply Qle_bool_iff.
Qed.

Ltac bool_to_Q :=
  repeat match goal with
  | H : Qltb _ _ = true |- _ => apply Qltb_true in H
  | H : Qltb _ _ = false |- _ => apply Qltb_false in H
  | H : Qle_bool _ _ = true |- _ => apply Qle_bool_iff in H
  | H : true = false |- _ => discriminate H
  | H : false = true |- _ => discriminate H
  end.

(** C3: for a positive threshold T (the slider offers 1.0 to 5.0) the colour
    depends on the relative volume and T only and is the colour of exactly
    one tier: normal when RVol <= T, elevated when T < RVol <= 2T, spike when
    RVol > 2T.  At RVol = 2T the tier is elevated and at RVol = T it is
    normal. *)
Theorem tier_classification (T : Q) (rvol : float64) :
  (0 < T)%Q ->
  (exists t, highlight_spike T rvol =
             ("background-color: " ++ tier_color t ++ "; color: black")%string /\
             forall t', highlight_color T rvol = tier_color t' -> t' = t) /\
  (ge (Fin T) rvol = true -> highlight_color T rvol = tier_color normal) /\
  (gt rvol (Fin T) = true -> ge (Fin (T * 2)) rvol = true ->
   highlight_color T rvol = tier_color elevated) /\
  (gt rvol (Fin (T * 2)) = true -> highlight_color T rvol = tier_color spike) /\
  highlight_color T (Fin (T * 2)) = tier_color elevated /\
  highlight_color T (Fin T) = tier_color normal.
Proof.
  intros HT. split; [|split; [|split; [|split; [|split]]]].
  - unfold highlight_spike, highlight_color.
    destruct (gt rvol (Fin (T * 2))); [exists spike|].
    2: destruct (gt rvol (Fin T)); [exists elevated | exists normal].
    all: split; [reflexivity | intros [] H; solve [reflexivity | discriminate H]].
  - destruct rvol as [|s|q]; unfold highlight_color; simpl; intros H.
    + reflexivity.
    + subst s. reflexivity.
    + destruct (Qltb (T * 2) q) eqn:E2, (Qltb T q) eqn:E1; bool_to_Q;
        try reflexivity; exfalso; lra.
  - destruct rvol as [|s|q]; unfold highlight_color; simpl; intros H1 H2.
    + discriminate.
    + destruct s; discriminate.
    + rewrite H1. destruct (Qltb (T * 2) q) eqn:E2; bool_to_Q;
        try reflexivity; exfalso; lra.
  - unfold highlight_color. intros ->. reflexivity.
  - unfold highlight_color; simpl.
    destruct (Qltb (T * 2) (T * 2)) eqn:E2, (Qltb T (T * 2)) eqn:E1; bool_to_Q;
      try reflexivity; exfalso; lra.
  - unfold highlight_color; simpl.
    destruct (Qltb (T * 2) T) eqn:E2, (Qltb T T) eqn:E1; bool_to_Q;
      try reflexivity; exfalso; lra.
Qed.

Lemma tier_classification_witness :
  (exists t, highlight_spike 1.5 (Fin 2.5) =
             ("background-color: " ++ tier_color t ++ "; color: black")%string /\
             forall t', highlight_color 1.5 (Fin 2.5) = tier_color t' -> t' = t) /\
  (ge (Fin 1.5) (Fin 2.5) = true -> highlight_color 1.5 (Fin 2.5) = tier_color normal) /\
  (gt (Fin 2.5) (Fin 1.5) = true -> ge (Fin (1.5 * 2)) (Fin 2.5) = true ->
   highlight_color 1.5 (Fin 2.5) = tier_color elevated) /\
  (gt (Fin 2.5) (Fin (1.5 * 2)) = true -> highlight_color 1.5 (Fin 2.5) = tier_color spike) /\
  highlight_color 1.5 (Fin (1.5 * 2)) = tier_color elevated /\
  highlight_color 1.5 (Fin 1.5) = tier_color normal.
Proof.
  apply (tier_classification 1.5 (Fin 2.5)). reflexivity.
Defined.

(** The scenarios of the specification at T = 1.5. *)
Example tier_scenarios :
  highlight_color 1.5 (Fin 1.0) = tier_color normal /\
  highlight_color 1.5 (Fin 1.6) = tier_color elevated /\
  highlight_color 1.5 (Fin 3.1) = tier_color spike /\
  highlight_color 1.5 (Fin 3.0) = tier_color elevated /\
  highlight_color 1.5 (Fin 2.5) = tier_color elevated.
Proof. repeat split. Qed.

(** ** Skipped tickers *)

Lemma iloc_last_nonempty {A : Type} (s : list A) :
  s <> [] -> exists x, iloc (-1) s = Ok x.
Proof.
  intros Hne. destruct (exists_last Hne) as [prior [latest ->]].
  exists latest. apply iloc_last.
Qed.

Lemma loop_skip (ticker_list : list string) (df : DataFrame) (ticker : string)
    (rest : list string) (data : list MetricsRow) :
  body ticker_list df ticker = Ok None \/ body ticker_list df ticker = Raise KeyError ->
  loop ticker_list df (ticker :: rest) data = loop ticker_list df rest data.
Proof. intros [H|H]; simpl; rewrite H; reflexivity. Qed.

Lemma loop_prefix (ticker_list : list string) (df : DataFrame)
    (before todo todo' : list string) :
  (forall data, loop ticker_list df todo data = loop ticker_list df todo' data) ->
  forall data,
    loop ticker_list df (before ++ todo) data = loop ticker_list df (before ++ todo') data.
Proof.
  intros Hsame. induction before as [|t before IH]; intros data; simpl.
  - apply Hsame.
  - destruct (body ticker_list df t) as [[r|]|[| |]]; auto.
Qed.

Lemma metrics_malformed (ticker : string) (columns : list string) (rows : list (row string)) :
  has_label "Volume" columns = false \/ has_label "Close" columns = false ->
  metrics ticker columns rows = Ok None \/ metrics ticker columns rows = Raise KeyError.
Proof.
  intros Hmissing. unfold metrics.
  destruct (empty columns (dropna_all columns rows)) eqn:Hempty; [now left|].
  right.
  assert (Hne : dropna_all columns rows <> []).
  { intros Hnil. rewrite Hnil in Hempty. discriminate. }
  destruct (iloc_last_nonempty _ Hne) as [latest ->]. simpl bind.
  unfold row_getitem.
  destruct (has_label "Volume" columns); [|reflexivity].
  destruct Hmissing as [H|H]; [discriminate|]. rewrite H. reflexivity.
Qed.

Lemma no_data_body (ticker_list : list string) (df : DataFrame) (ticker : string) :
  no_data ticker_list df ticker ->
  body ticker_list df ticker = Ok None \/ body ticker_list df ticker = Raise KeyError.
Proof.
  intros [Habsent | columns rows Hsel Hmissing | columns rows Hsel Hempty];
    unfold body.
  - rewrite Habsent. now right.
  - rewrite Hsel. simpl bind. now apply metrics_malformed.
  - rewrite Hsel. simpl bind. unfold metrics. rewrite Hempty. now left.
Qed.

(** C5: a ticker whose data is absent or malformed in the fetched frame, or
    whose series is empty once the rows holding only NaN are dropped, ends
    its iteration by [continue] (directly or through the caught KeyError):
    it adds no row and raises nothing, and the loop yields what it yields
    with that ticker left out of the iteration, whatever tickers come before
    and after it. *)
Theorem no_data_ticker_is_skipped
    (ticker_list : list string) (df : DataFrame) (ticker : string) :
  no_data ticker_list df ticker ->
  (body ticker_list df ticker = Ok None \/
   body ticker_list df ticker = Raise KeyError) /\
  forall before after data,
    loop ticker_list df (before ++ ticker :: after) data =
    loop ticker_list df (before ++ after) data.
Proof.
  intros Hno. pose proof (no_data_body _ _ _ Hno) as Hbody.
  split; [exact Hbody|].
  intros before after data. apply loop_prefix.
  intros data'. now apply loop_skip.
Qed.

Lemma no_data_ticker_is_skipped_witness :
  (body ["AAA"; "BBB"; "CCC"] sample_batch "BBB" = Ok None \/
   body ["AAA"; "BBB"; "CCC"] sample_batch "BBB" = Raise KeyError) /\
  forall before after data,
    loop ["AAA"; "BBB"; "CCC"] sample_batch (before ++ "BBB" :: after) data =
    loop ["AAA"; "BBB"; "CCC"] sample_batch (before ++ after) data.
Proof.
  apply (no_data_ticker_is_skipped ["AAA"; "BBB"; "CCC"] sample_batch "BBB").
  apply (empty_series _ _ _ ["Close"; "Volume"]
           (map (fun r : string * string -> float64 => fun field => r ("BBB", field))
                sample_index)); reflexivity.
Defined.

(** The batch of the specification's scenario: one row, for AAA. *)
Example sample_batch_rows :
  exists r,
    get_volume_data ["AAA"; "BBB"; "CCC"] (Returns sample_batch) = mkOutcome [] (Ok [r]) /\
    Ticker r = "AAA".
Proof. eexists. split; reflexivity. Qed.

(** ** A series of one bar *)

Lemma loop_returns_suffix (ticker_list : list string) (df : DataFrame)
    (before todo : list string) :
  forall data rows,
    loop ticker_list df (before ++ todo) data = Ok rows ->
    exists data', loop ticker_list df todo data' = Ok rows.
Proof.
  induction before as [|t before IH]; intros data rows; simpl.
  - intros H. now exists data.
  - destruct (body ticker_list df t) as [[r|]|[| |]]; try discriminate; apply IH.
Qed.

(** C6 (what the code does): when the cleaned series of a ticker has exactly
    one bar, [stock_df['Close'].iloc[-2]] raises IndexError.  The handler
    catches KeyError only, so the exception leaves the loop: no row is
    emitted for the ticker, and the call returns no rows at all, whatever
    tickers come before and after it. *)
Theorem single_bar_raises_IndexError
    (ticker_list : list string) (df : DataFrame) (ticker : string)
    (columns : list string) (rows : list (row string)) (only : row string) :
  select ticker_list df ticker = Ok (Frame (Flat columns rows)) ->
  dropna_all columns rows = [only] ->
  has_label "Volume" columns = true ->
  has_label "Close" columns = true ->
  body ticker_list df ticker = Raise IndexError /\
  avg_vol_20d (map (fun r => r "Volume") (dropna_all columns rows)) = NaN /\
  forall before after data found,
    loop ticker_list df (before ++ ticker :: after) data <> Ok found.
Proof.
  intros Hsel Hclean Hvol Hclose.
  assert (Hbody : body ticker_list df ticker = Raise IndexError).
  { unfold body. rewrite Hsel. simpl bind.
    rewrite (metrics_cleaned ticker columns rows [] only Hclean Hvol Hclose).
    reflexivity. }
  split; [exact Hbody|]. split; [rewrite Hclean; reflexivity|].
  intros before after data found Hloop.
  apply loop_returns_suffix in Hloop. destruct Hloop as [data' Hloop].
  simpl in Hloop. rewrite Hbody in Hloop. discriminate.
Qed.

Lemma single_bar_raises_IndexError_witness :
  body ["AAA"; "NEW"] first_day_batch "NEW" = Raise IndexError /\
  value (get_volume_data ["AAA"; "NEW"] (Returns first_day_batch)) = Raise IndexError /\
  value (get_volume_data ["NEW"] (Returns (Flat sample_columns [no_bar; bar 500 7])))
    = Raise IndexError.
Proof.
  split; [|split; reflexivity].
  apply (single_bar_raises_IndexError ["AAA"; "NEW"] first_day_batch "NEW"
           ["Close"; "Volume"]
           (map (fun r : string * string -> float64 => fun field => r ("NEW", field))
                first_day_index)
           (bar 500 7));
    reflexivity.
Defined.

(** ** Failure of the download *)

(** C8: when the call of [yf.download] raises, the message of the exception
    is passed to [st.error], the function returns normally, and what it
    returns holds no row, whatever the ticker list.  The page then shows
    the error and, in place of a table, the notice that no data was found. *)
Theorem fetch_failure_yields_no_rows (ticker_list : list string) (message : string) :
  get_volume_data ticker_list (Raises message) =
    mkOutcome [("Error fetching data: " ++ message)%string] (Ok []) /\
  forall argsort ticker_input vol_threshold,
    main argsort ticker_input vol_threshold (Raises message) =
      match tickers ticker_input with
      | [] => mkPage [] (Ok (Prompt "Enter tickers in the sidebar to begin."))
      | _ :: _ =>
          mkPage [("Error fetching data: " ++ message)%string]
                 (Ok (Notice "No data found. Please check ticker symbols."))
      end.
Proof.
  split; [reflexivity|].
  intros argsort ticker_input vol_threshold. unfold main.
  destruct (tickers ticker_input); reflexivity.
Qed.

(** ** Tickers of the output *)

Lemma subsequence_In {A : Type} (l1 l2 : list A) :
  subsequence l1 l2 -> forall x, In x l1 -> In x l2.
Proof.
  induction 1 as [|y l1 l2 _ IH|y l1 l2 _ IH]; intros x Hin.
  - exact Hin.
  - right. now apply IH.
  - destruct Hin as [->|Hin]; [now left | right; now apply IH].
Qed.

Lemma subsequence_count (l1 l2 : list string) :
  subsequence l1 l2 ->
  forall x, (count_occ string_dec l1 x <= count_occ string_dec l2 x)%nat.
Proof.
  induction 1 as [|y l1 l2 _ IH|y l1 l2 _ IH]; intros x; simpl.
  - lia.
  - specialize (IH x). destruct (string_dec y x); lia.
  - specialize (IH x). destruct (string_dec y x); lia.
Qed.

Lemma subsequence_NoDup {A : Type} (l1 l2 : list A) :
  subsequence l1 l2 -> NoDup l2 -> NoDup l1.
Proof.
  induction 1 as [|y l1 l2 Hsub IH|y l1 l2 Hsub IH]; intros Hnd.
  - exact Hnd.
  - inversion Hnd; subst. now apply IH.
  - inversion Hnd as [|? ? Hnotin Hnd']; subst. constructor.
    + intros Hin. apply Hnotin. now apply (subsequence_In _ _ Hsub).
    + now apply IH.
Qed.

(** The loop appends to [data], one row at most per ticker visited, in the
    order of the visit. *)
Lemma loop_appends (ticker_list : list string) (df : DataFrame) (todo : list string) :
  forall data rows,
    loop ticker_list df todo data = Ok rows ->
    exists added, rows = data ++ added /\ subsequence (map Ticker added) todo.
Proof.
  induction todo as [|t todo IH]; intros data rows Hloop; simpl in Hloop.
  - injection Hloop as <-. exists []. rewrite app_nil_r. split; constructor.
  - destruct (body ticker_list df t) as [[r|]|e] eqn:Hbody.
    + destruct (IH _ _ Hloop) as [added [-> Hsub]].
      exists (r :: added). rewrite <- app_assoc. split; [reflexivity|].
      simpl. apply body_row in Hbody. destruct Hbody as [-> _].
      now constructor.
    + destruct (IH _ _ Hloop) as [added [-> Hsub]].
      exists added. split; [reflexivity | now constructor].
    + destruct e; try discriminate.
      destruct (IH _ _ Hloop) as [added [-> Hsub]].
      exists added. split; [reflexivity | now constructor].
Qed.

(** C10: whatever the ticker list and whatever the download did, the
    tickers of the rows returned are the ticker list with some entries left
    out: every row carries a ticker of the list, a ticker occurs in no more
    rows than it has entries in the list, and a list without repetition
    gives rows without repeated ticker. *)
Theorem output_tickers_from_input
    (ticker_list : list string) (fetched : download) (rows : list MetricsRow) :
  value (get_volume_data ticker_list fetched) = Ok rows ->
  subsequence (map Ticker rows) ticker_list /\
  (forall r, In r rows -> In (Ticker r) ticker_list) /\
  (forall t, (count_occ string_dec (map Ticker rows) t
              <= count_occ string_dec ticker_list t)%nat) /\
  (NoDup ticker_list -> NoDup (map Ticker rows)).
Proof.
  intros Hv.
  assert (Hsub : subsequence (map Ticker rows) ticker_list).
  { destruct fetched as [e|df]; simpl in Hv.
    - injection Hv as <-. simpl.
      induction ticker_list; constructor; assumption.
    - destruct (loop_appends _ _ _ _ _ Hv) as [added [-> Hsub]]. exact Hsub. }
  split; [exact Hsub|]. split; [|split].
  - intros r Hin. apply (subsequence_In _ _ Hsub). now apply in_map.
  - now apply subsequence_count.
  - now apply subsequence_NoDup.
Qed.

Lemma output_tickers_from_input_witness :
  exists rows,
    value (get_volume_data ["AAA"; "BBB"; "CCC"] (Returns sample_batch)) = Ok rows /\
    subsequence (map Ticker rows) ["AAA"; "BBB"; "CCC"] /\
    (forall r, In r rows -> In (Ticker r) ["AAA"; "BBB"; "CCC"]) /\
    (forall t, (count_occ string_dec (map Ticker rows) t
                <= count_occ string_dec ["AAA"; "BBB"; "CCC"] t)%nat) /\
    (NoDup ["AAA"; "BBB"; "CCC"] -> NoDup (map Ticker rows)).
Proof.
  eexists. split; [reflexivity|].
  apply (output_tickers_from_input ["AAA"; "BBB"; "CCC"] (Returns sample_batch)).
  reflexivity.
Defined.

(** ** Parsing *)

Module TextFacts.
Import Text.

Lemma all_app (p : ascii -> bool) (s1 s2 : string) :
  all p (s1 ++ s2)%string = all p s1 && all p s2.
Proof.
  induction s1 as [|c s1 IH]; simpl; [reflexivity|].
  rewrite IH. apply andb_assoc.
Qed.

Lemma split_not_nil (s : string) : split s <> [].
Proof.
  destruct s as [|c rest]; simpl; [discriminate|].
  destruct (is_comma c); [discriminate|].
  destruct (split rest); discriminate.
Qed.

Lemma is_comma_eq (c : ascii) : is_comma c = true -> c = ","%char.
Proof. unfold is_comma. apply Ascii.eqb_eq. Qed.

(** Joining the pieces with commas gives the string back. *)
Lemma concat_split (s : string) : String.concat "," (split s) = s.
Proof.
  induction s as [|c rest IH]; simpl; [reflexivity|].
  pose proof (split_not_nil rest) as Hne.
  destruct (is_comma c) eqn:Hc.
  - apply is_comma_eq in Hc. subst c.
    destruct (split rest) as [|piece pieces] eqn:Hs; [contradiction|].
    simpl String.concat in *. rewrite IH. reflexivity.
  - destruct (split rest) as [|piece pieces] eqn:Hs; [contradiction|].
    destruct pieces as [|piece' pieces]; simpl in *; rewrite <- IH; reflexivity.
Qed.

(** No piece holds a comma. *)
Lemma split_no_comma (s : string) :
  Forall (fun piece => all (fun c => negb (is_comma c)) piece = true) (split s).
Proof.
  induction s as [|c rest IH]; simpl.
  - constructor; [reflexivity | constructor].
  - destruct (is_comma c) eqn:Hc.
    + constructor; [reflexivity | exact IH].
    + destruct (split rest) as [|piece pieces].
      * constructor; [simpl; rewrite Hc; reflexivity | constructor].
      * inversion IH as [|? ? Hpiece Hpieces]; subst.
        constructor; [simpl; rewrite Hc; exact Hpiece | exact Hpieces].
Qed.

Lemma lstrip_spec (s : string) :
  exists l, s = (l ++ lstrip s)%string /\ all is_space l = true /\
            starts_with_space (lstrip s) = false.
Proof.
  induction s as [|c rest [l [Heq [Hl Hs]]]]; simpl.
  - exists EmptyString. auto.
  - destruct (is_space c) eqn:Hc.
    + exists (String c l). simpl. rewrite Hc, Hl, <- Heq. auto.
    + exists EmptyString. simpl. auto.
Qed.

Lemma rstrip_spec (s : string) :
  exists r, s = (rstrip s ++ r)%string /\ all is_space r = true /\
            ends_with_space (rstrip s) = false.
Proof.
  induction s as [|c rest [r [Heq [Hr He]]]]; simpl.
  - exists EmptyString. auto.
  - destruct (rstrip rest) as [|k kept] eqn:Hk.
    + destruct (is_space c) eqn:Hc.
      * exists (String c r). simpl in *. subst r. rewrite Hc, Hr. auto.
      * exists r. simpl in *. subst r. rewrite Hc. auto.
    + exists r. simpl in *. rewrite <- Heq. auto.
Qed.

(** [rstrip] keeps a first character that is not a space. *)
Lemma rstrip_start (s : string) :
  starts_with_space s = false -> starts_with_space (rstrip s) = false.
Proof.
  destruct s as [|c rest]; simpl; [reflexivity|]. intros Hc.
  destruct (rstrip rest); [rewrite Hc; simpl; exact Hc | exact Hc].
Qed.

(** [strip] removes a run of spaces at each end and nothing else. *)
Lemma strip_spec (s : string) :
  exists l r, s = (l ++ strip s ++ r)%string /\
              all is_space l = true /\ all is_space r = true /\
              starts_with_space (strip s) = false /\
              ends_with_space (strip s) = false.
Proof.
  unfold strip.
  destruct (lstrip_spec s) as [l [Hl [Hls Hstart]]].
  destruct (rstrip_spec (lstrip s)) as [r [Hr [Hrs Hend]]].
  exists l, r. rewrite <- Hr, <- Hl.
  repeat split; auto. now apply rstrip_start.
Qed.

Lemma upper_char_not_lower (c : ascii) : is_lower (upper_char c) = false.
Proof.
  destruct c as [[] [] [] [] [] [] [] []]; reflexivity.
Qed.

Lemma upper_char_is_space (c : ascii) : is_space (upper_char c) = is_space c.
Proof.
  destruct c as [[] [] [] [] [] [] [] []]; reflexivity.
Qed.

Lemma upper_char_is_comma (c : ascii) : is_comma (upper_char c) = is_comma c.
Proof.
  destruct c as [[] [] [] [] [] [] [] []]; reflexivity.
Qed.

(** Lower-case letters move to the upper-case letter 32 below; every other
    character stays. *)
Lemma upper_char_spec (c : ascii) :
  (is_lower c = true -> nat_of_ascii (upper_char c) + 32 = nat_of_ascii c)%nat /\
  (is_lower c = false -> upper_char c = c).
Proof.
  destruct c as [[] [] [] [] [] [] [] []]; split; intros H;
    solve [reflexivity | discriminate H].
Qed.

Lemma upper_length (s : string) : String.length (upper s) = String.length s.
Proof. induction s; simpl; congruence. Qed.

Lemma upper_no_lower (s : string) : all (fun c => negb (is_lower c)) (upper s) = true.
Proof.
  induction s as [|c s IH]; simpl; [reflexivity|].
  rewrite upper_char_not_lower, IH. reflexivity.
Qed.

Lemma upper_all (p : ascii -> bool) (s : string) :
  (forall c, p (upper_char c) = p c) -> all p (upper s) = all p s.
Proof.
  intros Hp. induction s as [|c s IH]; simpl; [reflexivity|].
  now rewrite Hp, IH.
Qed.

Lemma upper_truthy (s : string) : truthy (upper s) = truthy s.
Proof. destruct s; reflexivity. Qed.

Lemma upper_starts_with_space (s : string) :
  starts_with_space (upper s) = starts_with_space s.
Proof. destruct s; simpl; [reflexivity | apply upper_char_is_space]. Qed.

Lemma upper_ends_with_space (s : string) :
  ends_with_space (upper s) = ends_with_space s.
Proof.
  induction s as [|c s IH]; simpl; [reflexivity|].
  destruct s as [|c' s]; simpl in *; [apply upper_char_is_space | exact IH].
Qed.

End TextFacts.

Import Text TextFacts.

Lemma tickers_refines (ticker_input : string) :
  tickers ticker_input = trimmed_upper_entries ticker_input.
Proof.
  unfold tickers, trimmed_upper_entries.
  induction (Text.split ticker_input) as [|x entries IH]; simpl; [reflexivity|].
  rewrite upper_truthy.
  destruct (Text.truthy (Text.strip x)); simpl; now rewrite IH.
Qed.

(** C9: for an ASCII ticker string, the entries are the pieces between the
    commas (joined by commas they give the input back, and none holds a
    comma); the parsed list is these entries trimmed and upper-cased, in
    their order, without those that are empty after trimming.  Each parsed
    ticker is thus the upper-cased core [s] of an entry [l ++ s ++ r] whose
    ends [l] and [r] are whitespace; it is not empty, does not begin or end
    with whitespace and holds neither a lower-case letter nor a comma. *)
Theorem tickers_trimmed_upper_nonempty (ticker_input : string) :
  is_ascii ticker_input = true ->
  String.concat "," (Text.split ticker_input) = ticker_input /\
  Forall (fun x => all (fun c => negb (Text.is_comma c)) x = true)
         (Text.split ticker_input) /\
  tickers ticker_input = trimmed_upper_entries ticker_input /\
  forall t, In t (tickers ticker_input) ->
    (exists x l r,
        In x (Text.split ticker_input) /\
        x = (l ++ Text.strip x ++ r)%string /\
        all Text.is_space l = true /\ all Text.is_space r = true /\
        t = Text.upper (Text.strip x) /\
        String.length t = String.length (Text.strip x)) /\
    Text.truthy t = true /\
    starts_with_space t = false /\ ends_with_space t = false /\
    all (fun c => negb (Text.is_lower c)) t = true /\
    all (fun c => negb (Text.is_comma c)) t = true.
Proof.
  intros _.
  split; [apply concat_split|].
  split; [apply split_no_comma|].
  split; [apply tickers_refines|].
  intros t Hin. rewrite tickers_refines in Hin. unfold trimmed_upper_entries in Hin.
  apply filter_In in Hin. destruct Hin as [Hin Htruthy].
  apply in_map_iff in Hin. destruct Hin as [s [<- Hin]].
  apply in_map_iff in Hin. destruct Hin as [x [<- Hx]].
  destruct (strip_spec x) as [l [r [Heq [Hl [Hr [Hstart Hend]]]]]].
  split; [|split; [|split; [|split; [|split]]]].
  - exists x, l, r. repeat split; auto. apply upper_length.
  - exact Htruthy.
  - now rewrite upper_starts_with_space.
  - now rewrite upper_ends_with_space.
  - apply upper_no_lower.
  - rewrite upper_all by (intros c; now rewrite upper_char_is_comma).
    pose proof (split_no_comma ticker_input) as Hall.
    rewrite Forall_forall in Hall. specialize (Hall x Hx).
    rewrite Heq, !all_app in Hall.
    apply andb_true_iff in Hall. destruct Hall as [_ Hall].
    apply andb_true_iff in Hall. tauto.
Qed.

Lemma tickers_trimmed_upper_nonempty_witness :
  tickers "AMD, nvda ,, ,Spy" = ["AMD"; "NVDA"; "SPY"] /\
  tickers "AMD, nvda ,, ,Spy" = trimmed_upper_entries "AMD, nvda ,, ,Spy".
Proof.
  split; [reflexivity|].
  apply (tickers_trimmed_upper_nonempty "AMD, nvda ,, ,Spy"). reflexivity.
Defined.

(** The default list of the sidebar. *)
Example default_tickers :
  tickers "AMD, NVDA, CRWV, APLD, SNDK, MU, TSLA, GOOG, META, SPY" =
    ["AMD"; "NVDA"; "CRWV"; "APLD"; "SNDK"; "MU"; "TSLA"; "GOOG"; "META"; "SPY"].
Proof. reflexivity. Qed.

(** ** Sorting *)

Lemma chain_cons {A : Type} (R : A -> A -> bool) (a : A) (l : list A) :
  chain R (a :: l) = match l with [] => true | b :: _ => R a b end && chain R l.
Proof. destruct l; reflexivity. Qed.

Lemma chain_snoc {A : Type} (R : A -> A -> bool) (l : list A) (a b : A) :
  chain R (l ++ [a; b]) = chain R (l ++ [a]) && R a b.
Proof.
  induction l as [|x l IH].
  - simpl. now rewrite andb_true_r.
  - change ((x :: l) ++ [a; b]) with (x :: (l ++ [a; b])).
    change ((x :: l) ++ [a]) with (x :: (l ++ [a])).
    rewrite !chain_cons, IH.
    destruct l as [|y l]; cbn [app].
    + simpl. destruct (R x a); reflexivity.
    + destruct (R x y); reflexivity.
Qed.

(** Reading a chain backwards turns the relation around. *)
Lemma chain_rev {A : Type} (R : A -> A -> bool) (l : list A) :
  chain R (rev l) = chain (fun a b => R b a) l.
Proof.
  induction l as [|a l IH]; [reflexivity|].
  destruct l as [|b l]; [reflexivity|].
  change (rev (a :: b :: l)) with ((rev l ++ [b]) ++ [a]).
  rewrite <- app_assoc. change ([b] ++ [a]) with [b; a].
  rewrite chain_snoc.
  change (rev l ++ [b]) with (rev (b :: l)).
  rewrite IH.
  change (chain (fun a b => R b a) (a :: b :: l))
    with (R b a && chain (fun a b => R b a) (b :: l)).
  apply andb_comm.
Qed.

Lemma gt_ge (x y : float64) : gt x y = true -> ge x y = true.
Proof.
  destruct x as [|a|p], y as [|b|q]; simpl; try discriminate; try tauto.
  - destruct a, b; simpl; auto.
  - intros H. apply Qltb_true in H. apply Qle_bool_iff. now apply Qlt_le_weak.
Qed.

Lemma ge_total (x y : float64) :
  notna x = true -> notna y = true -> ge x y = false -> ge y x = true.
Proof.
  destruct x as [|a|p], y as [|b|q]; simpl; try discriminate; intros _ _.
  - destruct a, b; simpl; auto.
  - now destruct a.
  - now destruct b.
  - intros H. apply Qle_bool_iff.
    destruct (Qlt_le_dec p q) as [Hlt|Hle]; [now apply Qlt_le_weak|].
    apply Qle_bool_iff in Hle. congruence.
Qed.

Lemma gt_false_ge (x y : float64) :
  notna x = true -> notna y = true -> gt x y = false -> ge y x = true.
Proof.
  destruct x as [|a|p], y as [|b|q]; simpl; try discriminate; intros _ _.
  - destruct a, b; simpl; auto.
  - now destruct a.
  - now destruct b.
  - intros H. apply Qltb_false in H. now apply Qle_bool_iff.
Qed.

Lemma filter_partition {A : Type} (f : A -> bool) (l : list A) :
  Permutation l (filter f l ++ filter (fun x => negb (f x)) l).
Proof.
  induction l as [|a l IH]; simpl; [constructor|].
  destruct (f a); simpl.
  - now constructor.
  - now apply Permutation_cons_app.
Qed.

Lemma filter_none {A : Type} (f : A -> bool) (l : list A) :
  Forall (fun x => f x = true) l -> filter (fun x => negb (f x)) l = [].
Proof.
  induction 1 as [|a l Ha _ IH]; simpl; [reflexivity|].
  now rewrite Ha.
Qed.

Lemma insert_permutation (r : MetricsRow) (sorted : list MetricsRow) :
  Permutation (r :: sorted) (insert r sorted).
Proof.
  induction sorted as [|h t IH]; simpl; [constructor; constructor|].
  destruct (gt (RVol h) (RVol r)); [apply Permutation_refl|].
  eapply perm_trans; [apply perm_swap|]. now constructor.
Qed.

Lemma insert_notna (r : MetricsRow) (sorted : list MetricsRow) :
  notna (RVol r) = true ->
  Forall (fun x => notna (RVol x) = true) sorted ->
  Forall (fun x => notna (RVol x) = true) (insert r sorted).
Proof.
  intros Hr Hall.
  eapply Permutation_Forall; [apply insert_permutation|]. now constructor.
Qed.

Lemma insert_ascending (r : MetricsRow) (sorted : list MetricsRow) :
  notna (RVol r) = true ->
  Forall (fun x => notna (RVol x) = true) sorted ->
  ascending sorted = true ->
  ascending (insert r sorted) = true.
Proof.
  intros Hr. unfold ascending.
  induction sorted as [|h t IH]; intros Hall Hasc; simpl; [reflexivity|].
  inversion Hall as [|? ? Hh Ht]; subst.
  destruct (gt (RVol h) (RVol r)) eqn:Hgo.
  - rewrite chain_cons, Hasc, (gt_ge _ _ Hgo). reflexivity.
  - pose proof (gt_false_ge _ _ Hh Hr Hgo) as Hge.
    rewrite chain_cons in Hasc. apply andb_true_iff in Hasc.
    destruct Hasc as [Hhead Htail].
    rewrite chain_cons, (IH Ht Htail), andb_true_r.
    destruct t as [|h' t']; simpl; [exact Hge|].
    destruct (gt (RVol h') (RVol r)); [exact Hge | exact Hhead].
Qed.

Lemma insertion_sort_from (rows acc : list MetricsRow) :
  Forall (fun x => notna (RVol x) = true) rows ->
  Forall (fun x => notna (RVol x) = true) acc ->
  ascending acc = true ->
  let sorted := fold_left (fun s r => insert r s) rows acc in
  Permutation (rows ++ acc) sorted /\ ascending sorted = true.
Proof.
  revert acc. induction rows as [|r rows IH]; intros acc Hrows Hacc Hasc; simpl.
  - split; [apply Permutation_refl | exact Hasc].
  - inversion Hrows as [|? ? Hr Hrest]; subst.
    pose proof (insert_permutation r acc) as Hperm.
    destruct (IH (insert r acc) Hrest) as [Hp Hs].
    + now apply insert_notna.
    + now apply insert_ascending.
    + split; [|exact Hs].
      eapply perm_trans; [|exact Hp].
      eapply perm_trans; [apply Permutation_middle|].
      apply Permutation_app_head. exact Hperm.
Qed.

Lemma argsort_behind_ties_kernel : sorting_kernel argsort_behind_ties.
Proof.
  intros rows Hrows. unfold argsort_behind_ties.
  destruct (insertion_sort_from rows [] Hrows (Forall_nil _) eq_refl) as [Hp Hs].
  rewrite app_nil_r in Hp. now split.
Qed.

Lemma descending_rev (rows : list MetricsRow) :
  descending (rev rows) = ascending rows.
Proof. unfold descending, ascending. apply chain_rev. Qed.

(** *** Ties *)


















(** * Further properties of the code *)

(** ** The window of line 62 *)

(** X1: on any series the slice [-21:-1] is the contiguous run that ends
    right before the last cell: it holds min(20, n - 1) cells of a series of
    n cells, and the last cell is never part of it. *)
Theorem window_is_run_before_last {A : Type} (s : list A) :
  length (iloc_slice (-21) (-1) s) = Nat.min 20 (length s - 1) /\
  exists older rest,
    s = older ++ iloc_slice (-21) (-1) s ++ rest /\
    length rest = Nat.min 1 (length s).
Proof.
  destruct s as [|a s'].
  - split; [reflexivity|]. exists [], []. split; reflexivity.
  - assert (Hne : a :: s' <> []) by discriminate.
    destruct (exists_last Hne) as [prior [latest Heq]]. rewrite Heq.
    rewrite iloc_slice_before_last, length_skipn, length_app. simpl length.
    split.
    { rewrite Nat.add_sub.
      destruct (Nat.min_spec 20 (length prior)) as [[? ->]|[? ->]]; lia. }
    exists (firstn (length prior - 20) prior), [latest].
    split; [|destruct (length prior); reflexivity].
    now rewrite app_assoc, firstn_skipn.
Qed.

(** ** What one frame can lead to (lines 50-81) *)

Lemma dropna_all_no_columns {L : Type} (rows : list (row L)) :
  dropna_all [] rows = [].
Proof. induction rows as [|r rows IH]; simpl; [reflexivity | exact IH]. Qed.

Lemma metrics_missing_label (ticker : string) (columns : list string)
    (rows : list (row string)) :
  dropna_all columns rows <> [] ->
  has_label "Volume" columns && has_label "Close" columns = false ->
  metrics ticker columns rows = Raise KeyError.
Proof.
  intros Hne Hmissing.
  assert (Hor : has_label "Volume" columns = false \/ has_label "Close" columns = false)
    by (apply andb_false_iff; exact Hmissing).
  destruct (metrics_malformed ticker columns rows Hor) as [H|H]; [|exact H].
  exfalso. unfold metrics in H.
  destruct (empty columns (dropna_all columns rows)) eqn:Hempty.
  - unfold empty in Hempty. apply orb_true_iff in Hempty.
    destruct Hempty as [Hrows|Hcols].
    + apply Nat.eqb_eq in Hrows. apply length_zero_iff_nil in Hrows. contradiction.
    + apply Nat.eqb_eq in Hcols. apply length_zero_iff_nil in Hcols.
      subst columns. apply Hne. apply dropna_all_no_columns.
  - destruct (iloc_last_nonempty _ Hne) as [latest Hlast].
    rewrite Hlast in H. simpl bind in H. unfold row_getitem in H.
    destruct (has_label "Volume" columns); [|discriminate H].
    destruct (has_label "Close" columns); discriminate.
Qed.

Lemma metrics_no_bar (ticker : string) (columns : list string)
    (raw : list (row string)) :
  dropna_all columns raw = [] -> metrics ticker columns raw = Ok None.
Proof. intros Hclean. unfold metrics. rewrite Hclean. reflexivity. Qed.

Lemma metrics_one_bar (ticker : string) (columns : list string)
    (raw : list (row string)) (only : row string) :
  dropna_all columns raw = [only] ->
  has_label "Volume" columns && has_label "Close" columns = true ->
  metrics ticker columns raw = Raise IndexError.
Proof.
  intros Hclean Hlabels.
  apply andb_true_iff in Hlabels. destruct Hlabels as [Hv Hc].
  rewrite (metrics_cleaned ticker columns raw [] only Hclean Hv Hc). reflexivity.
Qed.

Lemma metrics_two_bars (ticker : string) (columns : list string)
    (raw before : list (row string)) (previous latest : row string) :
  dropna_all columns raw = before ++ [previous; latest] ->
  has_label "Volume" columns && has_label "Close" columns = true ->
  metrics ticker columns raw =
    Ok (Some (mkRow ticker (latest "Close")
                (pct_change (latest "Close") (previous "Close"))
                (latest "Volume")
                (avg_vol_20d (map (fun x => x "Volume") (dropna_all columns raw)))
                (relative_volume (latest "Volume")
                   (avg_vol_20d (map (fun x => x "Volume") (dropna_all columns raw)))))).
Proof.
  intros Hclean Hlabels.
  apply andb_true_iff in Hlabels. destruct Hlabels as [Hv Hc].
  rewrite Hclean.
  replace (before ++ [previous; latest]) with ((before ++ [previous]) ++ [latest])
    in Hclean by (rewrite <- app_assoc; reflexivity).
  rewrite (metrics_cleaned ticker columns raw _ latest Hclean Hv Hc).
  rewrite <- app_assoc. change ([previous] ++ [latest]) with [previous; latest].
  rewrite map_app. simpl map at 2. rewrite iloc_previous. simpl bind.
  rewrite map_app. reflexivity.
Qed.

Lemma two_or_more {A : Type} (a b : A) (rest : list A) :
  exists before previous latest, a :: b :: rest = before ++ [previous; latest].
Proof.
  assert (Hne : a :: b :: rest <> []) by discriminate.
  destruct (exists_last Hne) as [prior [latest Heq]].
  assert (Hp : prior <> []) by (intros ->; simpl in Heq; discriminate).
  destruct (exists_last Hp) as [before [previous ->]].
  exists before, previous, latest. rewrite Heq, <- app_assoc. reflexivity.
Qed.

(** X2: the outcome of the metrics lines is decided by the number of bars
    left after the cleaning and by the presence of the two columns: no bar,
    the ticker is passed over; one bar, KeyError when a column is missing
    and IndexError otherwise; two bars or more, KeyError when a column is
    missing and a row otherwise, whatever the cells hold. *)
Theorem metrics_outcome (ticker : string) (columns : list string)
    (raw : list (row string)) :
  match dropna_all columns raw with
  | [] => metrics ticker columns raw = Ok None
  | [_] =>
      metrics ticker columns raw =
        if has_label "Volume" columns && has_label "Close" columns
        then Raise IndexError else Raise KeyError
  | _ :: _ :: _ =>
      if has_label "Volume" columns && has_label "Close" columns
      then exists r, metrics ticker columns raw = Ok (Some r)
      else metrics ticker columns raw = Raise KeyError
  end.
Proof.
  destruct (dropna_all columns raw) as [|a [|b rest]] eqn:Hclean.
  - now apply metrics_no_bar.
  - destruct (has_label "Volume" columns && has_label "Close" columns) eqn:Hlabels.
    + now apply (metrics_one_bar ticker columns raw a).
    + apply metrics_missing_label; [rewrite Hclean; discriminate | exact Hlabels].
  - destruct (has_label "Volume" columns && has_label "Close" columns) eqn:Hlabels.
    + destruct (two_or_more a b rest) as [before [previous [latest Heq]]].
      rewrite Heq in Hclean. eexists.
      apply (metrics_two_bars ticker columns raw before previous latest Hclean Hlabels).
    + apply metrics_missing_label; [rewrite Hclean; discriminate | exact Hlabels].
Qed.

Lemma quotient_nonnegative (p q : Q) : (0 <= p)%Q -> (0 < q)%Q -> (0 <= p / q)%Q.
Proof.
  intros Hp Hq. unfold Qdiv. apply Qmult_le_0_compat; [exact Hp|].
  apply Qinv_le_0_compat. now apply Qlt_le_weak.
Qed.

(** Over a positive previous close the change has the sign of the
    difference of the closes. *)
Lemma pct_change_sign (p p0 : Q) :
  (0 < p0)%Q ->
  ((p0 <= p)%Q -> ge (pct_change (Fin p) (Fin p0)) (Fin 0) = true) /\
  ((p <= p0)%Q -> ge (Fin 0) (pct_change (Fin p) (Fin p0)) = true).
Proof.
  intros Hpos.
  assert (Hnz : ~ (p0 == 0)%Q)
    by (intros Heq; rewrite Heq in Hpos; now apply Qlt_irrefl in Hpos).
  unfold pct_change, sub, neg, add, div.
  replace (Qeq_bool p0 0) with false
    by (symmetry; apply not_true_is_false; intros E; apply Qeq_bool_iff in E; tauto).
  cbn [mul ge]. split; intros Hle; apply Qle_bool_iff.
  - apply Qmult_le_0_compat; [|discriminate].
    apply quotient_nonnegative; [lra | exact Hpos].
  - assert (Hup : (0 <= (p0 - p) / p0 * 100)%Q).
    { apply Qmult_le_0_compat; [|discriminate].
      apply quotient_nonnegative; [lra | exact Hpos]. }
    assert (Heq : ((p + - p0) / p0 * 100 == - ((p0 - p) / p0 * 100))%Q)
      by (field; exact Hnz).
    rewrite Heq. lra.
Qed.

(** X3: with two cleaned bars or more and both columns present, the emitted
    row carries the ticker, the close of the latest bar as price, its volume
    as current volume, and as change what line 72 computes from the close of
    the latest bar and the close of the bar before it.  Over a positive
    previous close the change is not negative when the latest close is not
    below the previous one, and not positive when it is not above. *)
Theorem row_fields (ticker : string) (columns : list string)
    (raw before : list (row string)) (previous latest : row string) :
  dropna_all columns raw = before ++ [previous; latest] ->
  has_label "Volume" columns = true ->
  has_label "Close" columns = true ->
  exists r,
    metrics ticker columns raw = Ok (Some r) /\
    Ticker r = ticker /\
    Price r = latest "Close" /\
    Current_Vol r = latest "Volume" /\
    Change_pct r = pct_change (latest "Close") (previous "Close") /\
    forall p p0 : Q,
      latest "Close" = Fin p -> previous "Close" = Fin p0 -> (0 < p0)%Q ->
      ((p0 <= p)%Q -> ge (Change_pct r) (Fin 0) = true) /\
      ((p <= p0)%Q -> ge (Fin 0) (Change_pct r) = true).
Proof.
  intros Hclean Hv Hc.
  replace (before ++ [previous; latest]) with ((before ++ [previous]) ++ [latest])
    in Hclean by (rewrite <- app_assoc; reflexivity).
  rewrite (metrics_cleaned ticker columns raw _ latest Hclean Hv Hc).
  rewrite <- app_assoc. change ([previous] ++ [latest]) with [previous; latest].
  rewrite map_app. simpl map at 2. rewrite iloc_previous. simpl bind.
  eexists. repeat (split; [reflexivity|]).
  cbn [Change_pct]. intros p p0 -> -> Hpos. now apply pct_change_sign.
Qed.

Lemma row_fields_witness :
  exists r,
    metrics "AAA" sample_columns [bar 10 1; no_bar; bar 20 2; bar 60 3] = Ok (Some r) /\
    Ticker r = "AAA" /\
    Price r = Fin 3 /\
    Current_Vol r = Fin 60 /\
    Change_pct r = pct_change (Fin 3) (Fin 2) /\
    ge (Change_pct r) (Fin 0) = true.
Proof.
  destruct (row_fields "AAA" sample_columns [bar 10 1; no_bar; bar 20 2; bar 60 3]
              [bar 10 1] (bar 20 2) (bar 60 3) eq_refl eq_refl eq_refl)
    as [r [Hr [Ht [Hp [Hv [Hc Hsign]]]]]].
  exists r. repeat (split; [assumption|]).
  apply (Hsign 3%Q 2%Q eq_refl eq_refl); [reflexivity | discriminate].
Defined.

Lemma Qeq_bool_false (p q : Q) : Qeq_bool p q = false <-> ~ (p == q)%Q.
Proof.
  split.
  - intros H Heq. apply Qeq_bool_iff in Heq. congruence.
  - intros H. destruct (Qeq_bool p q) eqn:E; [|reflexivity].
    apply Qeq_bool_iff in E. contradiction.
Qed.

(** X4: a previous close of zero raises nothing: the row is emitted, and its
    change is NaN when the latest close is zero too, and otherwise the
    infinity that has the sign of the latest close. *)
Theorem zero_previous_close (ticker : string) (columns : list string)
    (raw before : list (row string)) (previous latest : row string) (p p0 : Q) :
  dropna_all columns raw = before ++ [previous; latest] ->
  has_label "Volume" columns = true ->
  has_label "Close" columns = true ->
  latest "Close" = Fin p ->
  previous "Close" = Fin p0 ->
  (p0 == 0)%Q ->
  exists r,
    metrics ticker columns raw = Ok (Some r) /\
    Change_pct r = if Qeq_bool p 0 then NaN else Inf (Qltb p 0).
Proof.
  intros Hclean Hv Hc Hp Hp0 Hz.
  replace (before ++ [previous; latest]) with ((before ++ [previous]) ++ [latest])
    in Hclean by (rewrite <- app_assoc; reflexivity).
  rewrite (metrics_cleaned ticker columns raw _ latest Hclean Hv Hc).
  rewrite <- app_assoc. change ([previous] ++ [latest]) with [previous; latest].
  rewrite map_app. simpl map at 2. rewrite iloc_previous. simpl bind.
  eexists. split; [reflexivity|]. cbn [Change_pct].
  rewrite Hp, Hp0. unfold pct_change, sub, neg, add, div.
  assert (Hd : (p + - p0 == p)%Q) by (rewrite Hz; ring).
  replace (Qeq_bool p0 0) with true by (symmetry; apply Qeq_bool_iff; exact Hz).
  destruct (Qeq_bool p 0) eqn:E.
  - apply Qeq_bool_iff in E.
    replace (Qeq_bool (p + - p0) 0) with true
      by (symmetry; apply Qeq_bool_iff; rewrite Hd; exact E).
    reflexivity.
  - apply Qeq_bool_false in E.
    replace (Qeq_bool (p + - p0) 0) with false
      by (symmetry; apply Qeq_bool_false; rewrite Hd; exact E).
    unfold mul. simpl Qeq_bool. cbv iota.
    replace (Qltb 100 0) with false by reflexivity.
    rewrite xorb_false_r.
    destruct (Qltb p 0) eqn:El.
    + apply Qltb_true in El.
      replace (Qltb (p + - p0) 0) with true
        by (symmetry; apply Qltb_true; rewrite Hd; exact El).
      reflexivity.
    + apply Qltb_false in El.
      replace (Qltb (p + - p0) 0) with false
        by (symmetry; apply Qltb_false; rewrite Hd; exact El).
      reflexivity.
Qed.

Lemma zero_previous_close_witness :
  exists r,
    metrics "AAA" sample_columns [bar 10 0; bar 60 3] = Ok (Some r) /\
    Change_pct r = Inf false.
Proof.
  apply (zero_previous_close "AAA" sample_columns [bar 10 0; bar 60 3]
           [] (bar 10 0) (bar 60 3) 3 0); reflexivity.
Defined.

(** ** Exceptions that leave the function *)

Lemma iloc_raises {A : Type} (i : Z) (s : list A) (e : exn) :
  iloc i s = Raise e -> e = IndexError.
Proof.
  unfold iloc.
  destruct ((0 <=? (if i <? 0 then i + Z.of_nat (length s) else i)) &&
            ((if i <? 0 then i + Z.of_nat (length s) else i) <? Z.of_nat (length s))).
  - destruct (nth_error s _); [discriminate | congruence].
  - congruence.
Qed.

Lemma metrics_raises (ticker : string) (columns : list string)
    (rows : list (row string)) (e : exn) :
  metrics ticker columns rows = Raise e -> e <> ValueError.
Proof.
  unfold metrics.
  destruct (empty columns (dropna_all columns rows)); [discriminate|].
  destruct (iloc (-1) (dropna_all columns rows)) as [latest|e0] eqn:Hlast.
  - simpl bind. unfold row_getitem, column.
    destruct (has_label "Volume" columns); [|simpl; congruence].
    destruct (has_label "Close" columns); [|simpl; congruence].
    simpl bind.
    destruct (iloc (-2) (map (fun r => r "Close") (dropna_all columns rows)))
      as [prev|e1] eqn:Hprev; simpl bind; [discriminate|].
    apply iloc_raises in Hprev. congruence.
  - simpl bind. apply iloc_raises in Hlast. congruence.
Qed.

Lemma loop_raises (ticker_list : list string) (df : DataFrame) (todo : list string) :
  forall data e,
    loop ticker_list df todo data = Raise e ->
    e <> KeyError /\ exists t, In t todo /\ body ticker_list df t = Raise e.
Proof.
  induction todo as [|t todo IH]; intros data e Hloop; simpl in Hloop;
    [discriminate|].
  destruct (body ticker_list df t) as [[r|]|e0] eqn:Hbody.
  - destruct (IH _ _ Hloop) as [Hne [t' [Hin Hb]]].
    split; [exact Hne | exists t'; split; [now right | exact Hb]].
  - destruct (IH _ _ Hloop) as [Hne [t' [Hin Hb]]].
    split; [exact Hne | exists t'; split; [now right | exact Hb]].
  - destruct e0.
    + destruct (IH _ _ Hloop) as [Hne [t' [Hin Hb]]].
      split; [exact Hne | exists t'; split; [now right | exact Hb]].
    + injection Hloop as <-. split; [discriminate|].
      exists t. split; [now left | exact Hbody].
    + injection Hloop as <-. split; [discriminate|].
      exists t. split; [now left | exact Hbody].
Qed.

(** X5: KeyError never leaves [get_volume_data]; an exception that does is
    the one raised in the iteration of some ticker of the list, and it can
    be ValueError only when a single ticker was requested and the frame
    came back with two levels of column labels. *)
Theorem escaping_exception (ticker_list : list string) (fetched : download) (e : exn) :
  value (get_volume_data ticker_list fetched) = Raise e ->
  e <> KeyError /\
  exists df t,
    fetched = Returns df /\ In t ticker_list /\ body ticker_list df t = Raise e /\
    (e = ValueError ->
     (length ticker_list <= 1)%nat /\ exists columns rows, df = Grouped columns rows).
Proof.
  destruct fetched as [message|df]; simpl; [discriminate|]. intros Hloop.
  destruct (loop_raises _ _ _ _ _ Hloop) as [Hne [t [Hin Hbody]]].
  split; [exact Hne|]. exists df, t. repeat split; auto.
  - subst e. unfold body, select in Hbody.
    destruct (1 <? length ticker_list)%nat eqn:Hlen.
    + exfalso. destruct df as [columns rows|columns rows]; simpl in Hbody.
      * unfold column in Hbody. destruct (has_label t columns); simpl in Hbody.
        -- unfold metrics_of_series in Hbody.
           destruct (Nat.eqb (length (filter notna (map (fun r => r t) rows))) 0);
             discriminate.
        -- discriminate.
      * destruct (fields_of t columns) eqn:Hf; simpl in Hbody; [discriminate|].
        now apply metrics_raises in Hbody.
    + apply Nat.ltb_ge in Hlen. exact Hlen.
  - subst e. unfold body, select in Hbody.
    destruct (1 <? length ticker_list)%nat eqn:Hlen.
    + exfalso. destruct df as [columns rows|columns rows]; simpl in Hbody.
      * unfold column in Hbody. destruct (has_label t columns); simpl in Hbody.
        -- unfold metrics_of_series in Hbody.
           destruct (Nat.eqb (length (filter notna (map (fun r => r t) rows))) 0);
             discriminate.
        -- discriminate.
      * destruct (fields_of t columns) eqn:Hf; simpl in Hbody; [discriminate|].
        now apply metrics_raises in Hbody.
    + destruct df as [columns rows|columns rows]; simpl in Hbody.
      * now apply metrics_raises in Hbody.
      * now exists columns, rows.
Qed.

Lemma escaping_exception_witness :
  IndexError <> KeyError /\
  exists df t,
    Returns first_day_batch = Returns df /\ In t ["AAA"; "NEW"] /\
    body ["AAA"; "NEW"] df t = Raise IndexError /\
    (IndexError = ValueError ->
     (length ["AAA"; "NEW"] <= 1)%nat /\ exists columns rows, df = Grouped columns rows).
Proof.
  apply (escaping_exception ["AAA"; "NEW"] (Returns first_day_batch) IndexError).
  reflexivity.
Defined.

(** ** The loop as a whole *)

(** X6: the loop over a list of tickers is the loop over its first part
    followed by the loop over the rest, started from the rows collected so
    far; an exception in the first part ends the whole. *)
Theorem loop_app (ticker_list : list string) (df : DataFrame)
    (first rest : list string) (data : list MetricsRow) :
  loop ticker_list df (first ++ rest) data =
    (collected <- loop ticker_list df first data ;;
     loop ticker_list df rest collected).
Proof.
  revert data. induction first as [|t first IH]; intros data; simpl.
  - reflexivity.
  - destruct (body ticker_list df t) as [[r|]|[| |]]; auto.
Qed.

Lemma loop_flat_map (ticker_list : list string) (df : DataFrame) (todo : list string) :
  forallb (fun t => negb (escapes ticker_list df t)) todo = true ->
  forall data,
    loop ticker_list df todo data =
      Ok (data ++ flat_map (emitted ticker_list df) todo).
Proof.
  induction todo as [|t todo IH]; intros Hall data; simpl.
  - now rewrite app_nil_r.
  - simpl in Hall. apply andb_true_iff in Hall. destruct Hall as [Ht Hall].
    unfold escapes in Ht. unfold emitted at 1.
    destruct (body ticker_list df t) as [[r|]|[| |]]; try discriminate Ht.
    + rewrite (IH Hall). now rewrite <- app_assoc.
    + now rewrite (IH Hall).
    + now rewrite (IH Hall).
Qed.

Lemma loop_escapes (ticker_list : list string) (df : DataFrame) (todo : list string) :
  forallb (fun t => negb (escapes ticker_list df t)) todo = false ->
  forall data, exists e, loop ticker_list df todo data = Raise e.
Proof.
  induction todo as [|t todo IH]; intros Hall data; simpl in *; [discriminate|].
  unfold escapes in Hall at 1.
  destruct (body ticker_list df t) as [[r|]|[| |]]; simpl in Hall;
    try (now apply IH); eexists; reflexivity.
Qed.

(** X7: [get_volume_data] returns rows exactly when no iteration is left by
    an exception other than KeyError, and the rows are then those of the
    tickers, one at most each, in the order of the list; otherwise it raises
    and no row is returned. *)
Theorem rows_per_ticker (ticker_list : list string) (df : DataFrame) :
  if forallb (fun t => negb (escapes ticker_list df t)) ticker_list
  then get_volume_data ticker_list (Returns df) =
         mkOutcome [] (Ok (flat_map (emitted ticker_list df) ticker_list))
  else exists e, get_volume_data ticker_list (Returns df) = mkOutcome [] (Raise e).
Proof.
  unfold get_volume_data.
  destruct (forallb (fun t => negb (escapes ticker_list df t)) ticker_list) eqn:Hall.
  - now rewrite (loop_flat_map _ _ _ Hall).
  - destruct (loop_escapes _ _ _ Hall []) as [e He]. exists e. now rewrite He.
Qed.

(** ** What the metrics depend on *)

Lemma metrics_same_cleaned (ticker : string) (columns : list string)
    (raw raw' : list (row string)) :
  dropna_all columns raw = dropna_all columns raw' ->
  metrics ticker columns raw = metrics ticker columns raw'.
Proof. intros H. unfold metrics. now rewrite H. Qed.

(** X8: a row whose cells are all NaN (a day on which the ticker did not
    trade) changes nothing, wherever it stands in the frame. *)
Theorem blank_row_is_ignored (ticker : string) (columns : list string)
    (above below : list (row string)) (blank : row string) :
  (forall c, In c columns -> blank c = NaN) ->
  metrics ticker columns (above ++ blank :: below) =
  metrics ticker columns (above ++ below).
Proof.
  intros Hblank. apply metrics_same_cleaned.
  unfold dropna_all. rewrite !filter_app. simpl filter.
  replace (existsb (fun c => notna (blank c)) columns) with false; [reflexivity|].
  symmetry. apply not_true_is_false. intros Hex.
  apply existsb_exists in Hex. destruct Hex as [c [Hin Hc]].
  rewrite (Hblank c Hin) in Hc. discriminate.
Qed.

Lemma blank_row_is_ignored_witness :
  metrics "AAA" sample_columns ([bar 10 1] ++ no_bar :: [bar 20 2; bar 60 3]) =
  metrics "AAA" sample_columns ([bar 10 1] ++ [bar 20 2; bar 60 3]).
Proof.
  apply (blank_row_is_ignored "AAA" sample_columns [bar 10 1] [bar 20 2; bar 60 3] no_bar).
  reflexivity.
Defined.

Lemma skipn_older {A : Type} (older recent : list A) :
  (20 <= length recent)%nat ->
  skipn (length (older ++ recent) - 20) (older ++ recent) =
  skipn (length recent - 20) recent.
Proof.
  intros Hlen. rewrite length_app, skipn_app.
  rewrite skipn_all2 by lia. simpl.
  f_equal. lia.
Qed.

(** X9: the bars older than the last 21 of the cleaned series do not enter
    the row: two frames whose cleaned series agree on their last 21 bars
    give the same outcome. *)
Theorem older_bars_do_not_matter (ticker : string) (columns : list string)
    (raw raw' older older' recent : list (row string)) :
  dropna_all columns raw = older ++ recent ->
  dropna_all columns raw' = older' ++ recent ->
  length recent = 21%nat ->
  metrics ticker columns raw = metrics ticker columns raw'.
Proof.
  intros Hraw Hraw' Hlen.
  assert (Hne : recent <> []) by (intros ->; discriminate).
  destruct (exists_last Hne) as [prior [latest ->]].
  rewrite length_app in Hlen; simpl in Hlen.
  assert (Hp : prior <> []) by (intros ->; simpl in Hlen; lia).
  destruct (exists_last Hp) as [before [previous ->]].
  rewrite app_assoc in Hraw, Hraw'.
  destruct (has_label "Volume" columns && has_label "Close" columns) eqn:Hlabels.
  - apply andb_true_iff in Hlabels. destruct Hlabels as [Hv Hc].
    rewrite (metrics_cleaned ticker columns raw _ latest Hraw Hv Hc).
    rewrite (metrics_cleaned ticker columns raw' _ latest Hraw' Hv Hc).
    assert (Hprev : forall o : list (row string),
              iloc (-2) (map (fun r => r "Close") ((o ++ before ++ [previous]) ++ [latest]))
              = Ok (previous "Close")).
    { intros o.
      replace ((o ++ before ++ [previous]) ++ [latest])
        with ((o ++ before) ++ [previous; latest])
        by (rewrite <- !app_assoc; reflexivity).
      rewrite map_app. simpl map at 2. apply iloc_previous. }
    assert (Havg : forall o : list (row string),
              avg_vol_20d (map (fun r => r "Volume") ((o ++ before ++ [previous]) ++ [latest]))
              = mean (skipn (length (before ++ [previous]) - 20)
                            (map (fun r => r "Volume") (before ++ [previous])))).
    { intros o. unfold avg_vol_20d. rewrite map_app. simpl map at 2.
      rewrite iloc_slice_before_last. rewrite map_app.
      rewrite skipn_older by (rewrite length_map; lia).
      now rewrite length_map. }
    rewrite !Hprev, !Havg. reflexivity.
  - rewrite !metrics_missing_label; auto.
    + rewrite Hraw'. intros H. apply app_eq_nil in H. destruct H. discriminate.
    + rewrite Hraw. intros H. apply app_eq_nil in H. destruct H. discriminate.
Qed.

Lemma older_bars_do_not_matter_witness :
  metrics "AAA" sample_columns sample_series =
  metrics "AAA" sample_columns (sample_window ++ [bar 5000000 11]).
Proof.
  apply (older_bars_do_not_matter "AAA" sample_columns sample_series
           (sample_window ++ [bar 5000000 11]) [bar 7 9] []
           (sample_window ++ [bar 5000000 11])); reflexivity.
Defined.

(** ** Averages and ratios *)

Lemma filter_twice {A : Type} (f : A -> bool) (l : list A) :
  filter f (filter f l) = filter f l.
Proof.
  induction l as [|a l IH]; simpl; [reflexivity|].
  destruct (f a) eqn:Ha; simpl; [rewrite Ha, IH|]; auto.
Qed.

Lemma mean_skips_nan (values : list float64) :
  mean values = mean (filter notna values).
Proof. unfold mean. now rewrite filter_twice. Qed.

Lemma total_nonnegative (vs : list Q) :
  Forall (fun v => (0 <= v)%Q) vs ->
  forall acc, (0 <= acc)%Q ->
  exists s, fold_left add (map Fin vs) (Fin acc) = Fin s /\ (0 <= s)%Q.
Proof.
  induction 1 as [|v vs Hv _ IH]; intros acc Hacc; simpl.
  - now exists acc.
  - apply IH. replace 0%Q with (0 + 0)%Q by reflexivity.
    now apply Qplus_le_compat.
Qed.

(** The mean of non-negative numbers is not NaN and not below 0. *)
Lemma mean_nonnegative (values : list float64) :
  Forall (fun x => exists v, x = Fin v /\ (0 <= v)%Q) values ->
  values <> [] ->
  ge (mean values) (Fin 0) = true.
Proof.
  intros Hall Hne.
  assert (Hvs : exists vs, values = map Fin vs /\ Forall (fun v => (0 <= v)%Q) vs).
  { clear Hne. induction Hall as [|x values [v [-> Hv]] _ [vs [-> Hvs]]].
    - exists []. split; constructor.
    - exists (v :: vs). split; [reflexivity | now constructor]. }
  destruct Hvs as [vs [-> Hvs]].
  destruct vs as [|v vs]; [contradiction|].
  unfold mean. rewrite filter_notna_Fin.
  change (map Fin (v :: vs)) with (Fin v :: map Fin vs). cbv beta iota.
  change (Fin v :: map Fin vs) with (map Fin (v :: vs)).
  unfold total.
  destruct (total_nonnegative (v :: vs) Hvs 0 (Qle_refl 0)) as [s [-> Hs]].
  assert (Hn : (0 < inject_Z (Z.of_nat (length (map Fin (v :: vs)))))%Q).
  { unfold Qlt. simpl. lia. }
  unfold of_nat. cbn [div].
  rewrite (proj2 (Qeq_bool_false _ 0)).
  - cbn [ge]. apply Qle_bool_iff. now apply quotient_nonnegative.
  - intros Heq. rewrite Heq in Hn. now apply Qlt_irrefl in Hn.
Qed.

Lemma In_skipn {A : Type} (n : nat) (l : list A) (x : A) :
  In x (skipn n l) -> In x l.
Proof.
  intros H. rewrite <- (firstn_skipn n l). apply in_or_app. now right.
Qed.

(** X10: a volume cell of the window that is NaN does not make the average
    NaN.  When the cells before the latest one (the last 20 of them) are
    non-negative numbers or NaN, the average is NaN if none of them is a
    number; as soon as one is, the average is not NaN and not below 0. *)
Theorem average_skips_missing_volumes (columns : list string)
    (raw prior : list (row string)) (latest : row string) :
  dropna_all columns raw = prior ++ [latest] ->
  let volume := map (fun r => r "Volume") (dropna_all columns raw) in
  let window := skipn (length prior - 20) (map (fun r => r "Volume") prior) in
  Forall (fun c => c = NaN \/ exists v, c = Fin v /\ (0 <= v)%Q) window ->
  iloc_slice (-21) (-1) volume = window /\
  (filter notna window = [] -> avg_vol_20d volume = NaN) /\
  (filter notna window <> [] -> ge (avg_vol_20d volume) (Fin 0) = true).
Proof.
  intros Hclean volume window Hcells.
  assert (Hslice : iloc_slice (-21) (-1) volume = window).
  { unfold volume, window. rewrite Hclean, map_app. simpl map at 2.
    now rewrite iloc_slice_before_last, length_map. }
  assert (Havg : avg_vol_20d volume = mean (filter notna window)).
  { unfold avg_vol_20d. rewrite Hslice. apply mean_skips_nan. }
  split; [exact Hslice|]. rewrite Havg. split.
  - now intros ->.
  - apply mean_nonnegative.
    apply Forall_forall. intros c Hc. apply filter_In in Hc.
    destruct Hc as [Hin Hnum].
    rewrite Forall_forall in Hcells.
    destruct (Hcells c Hin) as [->|Hv]; [discriminate | exact Hv].
Qed.

Lemma average_skips_missing_volumes_witness :
  let raw := [bar 10 1; (fun c => if String.eqb c "Open" then Fin 2 else NaN);
              bar 30 2; bar 60 3] in
  let volume := map (fun r => r "Volume") (dropna_all ["Open"; "Close"; "Volume"] raw) in
  iloc_slice (-21) (-1) volume = [Fin 10; NaN; Fin 30] /\
  ge (avg_vol_20d volume) (Fin 0) = true.
Proof.
  destruct (average_skips_missing_volumes ["Open"; "Close"; "Volume"]
              [bar 10 1; (fun c => if String.eqb c "Open" then Fin 2 else NaN);
               bar 30 2; bar 60 3]
              [bar 10 1; (fun c => if String.eqb c "Open" then Fin 2 else NaN); bar 30 2]
              (bar 60 3) eq_refl)
    as [Hslice [_ Havg]].
  - change (Forall (fun c => c = NaN \/ exists v, c = Fin v /\ (0 <= v)%Q)
                   [Fin 10; NaN; Fin 30]).
    repeat apply Forall_cons; try apply Forall_nil;
      solve [now left | right; eexists; split; [reflexivity | discriminate]].
  - intros raw volume. split; [exact Hslice|]. apply Havg. discriminate.
Defined.

(** An emitted row comes from a cleaned series of two bars at least, and
    its fields are those of lines 56-81. *)
Lemma metrics_inversion (ticker : string) (columns : list string)
    (raw : list (row string)) (r : MetricsRow) :
  metrics ticker columns raw = Ok (Some r) ->
  exists before previous latest,
    dropna_all columns raw = before ++ [previous; latest] /\
    r = mkRow ticker (latest "Close")
          (pct_change (latest "Close") (previous "Close"))
          (latest "Volume")
          (avg_vol_20d (map (fun x => x "Volume") (dropna_all columns raw)))
          (relative_volume (latest "Volume")
             (avg_vol_20d (map (fun x => x "Volume") (dropna_all columns raw)))).
Proof.
  intros Hm.
  destruct (dropna_all columns raw) as [|a [|b rest]] eqn:Hclean.
  - rewrite (metrics_no_bar _ _ _ Hclean) in Hm. discriminate.
  - destruct (has_label "Volume" columns && has_label "Close" columns) eqn:Hlabels.
    + rewrite (metrics_one_bar _ _ _ a Hclean Hlabels) in Hm. discriminate.
    + rewrite metrics_missing_label in Hm; auto; [discriminate|].
      rewrite Hclean. discriminate.
  - destruct (has_label "Volume" columns && has_label "Close" columns) eqn:Hlabels.
    + destruct (two_or_more a b rest) as [before [previous [latest Heq]]].
      rewrite Heq in *. exists before, previous, latest. split; [reflexivity|].
      rewrite (metrics_two_bars _ _ _ _ _ _ Hclean Hlabels) in Hm.
      injection Hm as <-. now rewrite Hclean.
    + rewrite metrics_missing_label in Hm; auto; [discriminate|].
      rewrite Hclean. discriminate.
Qed.

Lemma positive_not_zero (a : Q) : (0 < a)%Q -> Qeq_bool a 0 = false.
Proof.
  intros Hpos. apply Qeq_bool_false. intros Heq. rewrite Heq in Hpos.
  now apply Qlt_irrefl in Hpos.
Qed.

(** A quotient by a positive number compares with 1 as the dividend
    compares with the divisor. *)
Lemma quotient_above_one (v a : Q) :
  (0 < a)%Q ->
  Qltb 1 (v / a) = Qltb a v /\ Qle_bool 1 (v / a) = Qle_bool a v.
Proof.
  intros Hpos. split.
  - destruct (Qltb a v) eqn:E.
    + apply Qltb_true in E. apply Qltb_true.
      apply Qlt_shift_div_l; [exact Hpos | now rewrite Qmult_1_l].
    + apply Qltb_false in E. apply Qltb_false.
      apply Qle_shift_div_r; [exact Hpos | now rewrite Qmult_1_l].
  - destruct (Qle_bool a v) eqn:E.
    + apply Qle_bool_iff in E. apply Qle_bool_iff.
      apply Qle_shift_div_l; [exact Hpos | now rewrite Qmult_1_l].
    + apply not_true_is_false. intros H. apply Qle_bool_iff in H.
      assert (Hav : (a <= v)%Q).
      { apply (Qmult_le_compat_r _ _ a) in H; [|now apply Qlt_le_weak].
        rewrite Qmult_1_l in H. unfold Qdiv in H.
        rewrite <- Qmult_assoc, (Qmult_comm (/ a)), Qmult_inv_r, Qmult_1_r in H;
          [exact H|].
        intros Heq. rewrite Heq in Hpos. now apply Qlt_irrefl in Hpos. }
      apply Qle_bool_iff in Hav. congruence.
Qed.

(** X11: for an emitted row whose average volume is a positive number, the
    relative volume is above 1 exactly when the current volume is above the
    average, and at least 1 exactly when the current volume is at least the
    average. *)
Theorem relative_volume_above_one (ticker : string) (columns : list string)
    (raw : list (row string)) (r : MetricsRow) (a : Q) :
  metrics ticker columns raw = Ok (Some r) ->
  Avg_Vol_20D r = Fin a ->
  (0 < a)%Q ->
  gt (RVol r) (Fin 1) = gt (Current_Vol r) (Avg_Vol_20D r) /\
  ge (RVol r) (Fin 1) = ge (Current_Vol r) (Avg_Vol_20D r).
Proof.
  intros Hm Ha Hpos. apply metrics_row in Hm. destruct Hm as [_ [_ Hr]].
  rewrite Hr, Ha. unfold relative_volume. cbn [gt].
  replace (Qltb 0 a) with true by (symmetry; apply Qltb_true; exact Hpos).
  destruct (Current_Vol r) as [|s|v]; cbn [div gt ge].
  - split; reflexivity.
  - replace (Qltb a 0) with false
      by (symmetry; apply Qltb_false; now apply Qlt_le_weak).
    rewrite xorb_false_r. split; reflexivity.
  - rewrite (positive_not_zero a Hpos). cbn [gt ge].
    now apply quotient_above_one.
Qed.

Lemma relative_volume_above_one_witness :
  exists r,
    metrics "AAA" sample_columns sample_series = Ok (Some r) /\
    Current_Vol r = Fin 5000000 /\
    gt (RVol r) (Fin 1) = true /\
    ge (RVol r) (Fin 1) = true.
Proof.
  eexists. split; [reflexivity|]. split; [reflexivity|].
  destruct (relative_volume_above_one "AAA" sample_columns sample_series
              _ (40000000 / 20) eq_refl eq_refl eq_refl) as [Hgt Hge].
  split; [exact Hgt | exact Hge].
Defined.

(** X12: when every volume cell of the cleaned series is a non-negative
    number, each emitted row has an average volume and a relative volume
    that are not NaN and not below 0. *)
Theorem relative_volume_nonnegative (ticker : string) (columns : list string)
    (raw : list (row string)) (r : MetricsRow) :
  Forall (fun x : row string => exists v, x "Volume" = Fin v /\ (0 <= v)%Q)
         (dropna_all columns raw) ->
  metrics ticker columns raw = Ok (Some r) ->
  ge (Avg_Vol_20D r) (Fin 0) = true /\
  ge (RVol r) (Fin 0) = true.
Proof.
  intros Hall Hm.
  destruct (metrics_inversion _ _ _ _ Hm) as [before [previous [latest [Hclean ->]]]].
  cbn [Avg_Vol_20D RVol]. rewrite Hclean in *.
  assert (Hlatest : exists v, latest "Volume" = Fin v /\ (0 <= v)%Q).
  { rewrite Forall_forall in Hall. apply Hall.
    apply in_or_app. right. right. now left. }
  destruct Hlatest as [v [-> Hv]].
  assert (Havg : ge (avg_vol_20d (map (fun x : row string => x "Volume")
                                      (before ++ [previous; latest]))) (Fin 0) = true).
  { unfold avg_vol_20d.
    replace (before ++ [previous; latest]) with ((before ++ [previous]) ++ [latest])
      by (rewrite <- app_assoc; reflexivity).
    rewrite map_app. simpl map at 2. rewrite iloc_slice_before_last.
    apply mean_nonnegative.
    - apply Forall_forall. intros c Hc. apply In_skipn in Hc.
      apply in_map_iff in Hc. destruct Hc as [bar0 [<- Hin]].
      rewrite Forall_forall in Hall. apply Hall.
      apply in_app_or in Hin. apply in_or_app.
      destruct Hin as [Hin|[<-|[]]]; [now left | right; now left].
    - intros Hnil. apply (f_equal (@length float64)) in Hnil.
      rewrite length_skipn, length_map, length_app in Hnil. simpl in Hnil. lia. }
  split; [exact Havg|].
  destruct (avg_vol_20d _) as [|s|a]; [discriminate| |].
  - destruct s; [discriminate|]. reflexivity.
  - unfold relative_volume. cbn [gt].
    destruct (Qltb 0 a) eqn:Hpos; [|reflexivity].
    apply Qltb_true in Hpos. cbn [div].
    rewrite (positive_not_zero a Hpos). cbn [ge]. apply Qle_bool_iff.
    now apply quotient_nonnegative.
Qed.

Lemma relative_volume_nonnegative_witness :
  exists r,
    metrics "AAA" sample_columns [bar 0 1; bar 0 2; bar 60 3] = Ok (Some r) /\
    ge (Avg_Vol_20D r) (Fin 0) = true /\
    ge (RVol r) (Fin 0) = true.
Proof.
  assert (Hall : Forall (fun x : row string => exists v, x "Volume" = Fin v /\ (0 <= v)%Q)
                        (dropna_all sample_columns [bar 0 1; bar 0 2; bar 60 3]))
    by (repeat constructor; eexists; (split; [reflexivity | discriminate])).
  eexists. split; [reflexivity|].
  apply (relative_volume_nonnegative "AAA" sample_columns
           [bar 0 1; bar 0 2; bar 60 3] _ Hall eq_refl).
Defined.

(** ** Highlighting is monotone *)

Lemma gt_threshold_monotone (v1 v2 : float64) (t1 t2 : Q) :
  gt v1 (Fin t1) = true -> ge v2 v1 = true -> (t2 <= t1)%Q ->
  gt v2 (Fin t2) = true.
Proof.
  destruct v1 as [|s1|q1], v2 as [|s2|q2]; simpl; try discriminate; intros H1 H2 Ht.
  - destruct s1, s2; simpl in *; congruence.
  - subst s1. discriminate.
  - destruct s2; [discriminate | reflexivity].
  - apply Qltb_true in H1. apply Qle_bool_iff in H2. apply Qltb_true.
    eapply Qle_lt_trans; [exact Ht|]. eapply Qlt_le_trans; eassumption.
Qed.

(** X13: the colouring never ranks a higher relative volume below a lower
    one, and never ranks a value higher under a higher threshold: if the
    higher value under the lower threshold is shown as normal so is the
    other, and if the lower value under the higher threshold is shown as a
    spike so is the other. *)
Theorem highlight_monotone (T1 T2 : Q) (v1 v2 : float64) :
  ge v2 v1 = true ->
  (T2 <= T1)%Q ->
  (highlight_color T2 v2 = tier_color normal ->
   highlight_color T1 v1 = tier_color normal) /\
  (highlight_color T1 v1 = tier_color spike ->
   highlight_color T2 v2 = tier_color spike).
Proof.
  intros Hv HT.
  assert (HT2 : (T2 * 2 <= T1 * 2)%Q) by lra.
  pose proof (fun H => gt_threshold_monotone v1 v2 T1 T2 H Hv HT) as Hlow.
  pose proof (fun H => gt_threshold_monotone v1 v2 (T1 * 2) (T2 * 2) H Hv HT2) as Hhigh.
  unfold highlight_color, tier_color.
  destruct (gt v1 (Fin T1)), (gt v1 (Fin (T1 * 2)));
    try (rewrite Hlow by reflexivity); try (rewrite Hhigh by reflexivity);
    split; intros H; try reflexivity; try discriminate H;
    destruct (gt v2 (Fin T2)), (gt v2 (Fin (T2 * 2)));
    solve [reflexivity | discriminate H].
Qed.

Lemma highlight_monotone_witness :
  (highlight_color 1.5 (Fin 2.5) = tier_color normal ->
   highlight_color 2 (Fin 1.6) = tier_color normal) /\
  (highlight_color 2 (Fin 1.6) = tier_color spike ->
   highlight_color 1.5 (Fin 2.5) = tier_color spike).
Proof.
  apply (highlight_monotone 2 1.5 (Fin 1.6) (Fin 2.5)); [reflexivity | discriminate].
Defined.

(** ** The parser on joined lists *)

Lemma split_app (a b : string) :
  split (a ++ "," ++ b)%string = split a ++ split b.
Proof.
  change ("," ++ b)%string with (String ","%char b).
  induction a as [|c a IH]; simpl; [reflexivity|].
  destruct (is_comma c); [now rewrite IH|].
  rewrite IH. pose proof (split_not_nil a) as Hne.
  destruct (split a); [contradiction | reflexivity].
Qed.

(** X14: parsing distributes over the comma: the tickers of two inputs
    joined by a comma are the tickers of the first followed by the tickers
    of the second. *)
Theorem tickers_app (a b : string) :
  tickers (a ++ "," ++ b)%string = tickers a ++ tickers b.
Proof.
  unfold tickers. rewrite split_app.
  apply flat_map_app.
Qed.

Lemma split_without_comma (x : string) :
  all (fun c => negb (is_comma c)) x = true -> split x = [x].
Proof.
  induction x as [|c x IH]; simpl; [reflexivity|]. intros H.
  apply andb_true_iff in H. destruct H as [Hc Hx].
  apply negb_true_iff in Hc. rewrite Hc, (IH Hx). reflexivity.
Qed.

Lemma lstrip_fixed (x : string) : starts_with_space x = false -> lstrip x = x.
Proof. destruct x as [|c x]; simpl; [reflexivity|]. now intros ->. Qed.

Lemma rstrip_fixed (x : string) : ends_with_space x = false -> rstrip x = x.
Proof.
  induction x as [|c x IH]; simpl; [reflexivity|].
  destruct x as [|c' x].
  - simpl. now intros ->.
  - intros H. rewrite (IH H). reflexivity.
Qed.

Lemma upper_fixed (x : string) :
  all (fun c => negb (is_lower c)) x = true -> upper x = x.
Proof.
  induction x as [|c x IH]; simpl; [reflexivity|]. intros H.
  apply andb_true_iff in H. destruct H as [Hc Hx].
  apply negb_true_iff in Hc.
  rewrite (proj2 (upper_char_spec c) Hc), (IH Hx). reflexivity.
Qed.

Lemma is_symbol_parts (t : string) :
  is_symbol t = true ->
  truthy t = true /\ starts_with_space t = false /\ ends_with_space t = false /\
  all (fun c => negb (is_lower c)) t = true /\
  all (fun c => negb (is_comma c)) t = true.
Proof.
  unfold is_symbol. intros H.
  repeat (apply andb_true_iff in H; destruct H as [H ?]).
  repeat split; auto; now apply negb_true_iff.
Qed.

Lemma tickers_of_symbol (t : string) : is_symbol t = true -> tickers t = [t].
Proof.
  intros H. apply is_symbol_parts in H.
  destruct H as [Ht [Hs [He [Hl Hc]]]].
  unfold tickers. rewrite (split_without_comma t Hc). simpl.
  unfold strip. rewrite (lstrip_fixed t Hs), (rstrip_fixed t He), Ht.
  now rewrite (upper_fixed t Hl).
Qed.

Lemma tickers_are_symbols (ticker_input t : string) :
  In t (tickers ticker_input) -> is_symbol t = true.
Proof.
  intros Hin. rewrite tickers_refines in Hin. unfold trimmed_upper_entries in Hin.
  apply filter_In in Hin. destruct Hin as [Hin Htruthy].
  apply in_map_iff in Hin. destruct Hin as [s [<- Hin]].
  apply in_map_iff in Hin. destruct Hin as [x [<- Hx]].
  destruct (strip_spec x) as [l [r [Heq [Hl [Hr [Hstart Hend]]]]]].
  unfold is_symbol.
  rewrite Htruthy, upper_starts_with_space, Hstart, upper_ends_with_space, Hend.
  rewrite upper_no_lower. simpl.
  rewrite upper_all by (intros c; now rewrite upper_char_is_comma).
  pose proof (split_no_comma ticker_input) as Hall.
  rewrite Forall_forall in Hall. specialize (Hall x Hx).
  rewrite Heq, !all_app in Hall.
  apply andb_true_iff in Hall. destruct Hall as [_ Hall].
  apply andb_true_iff in Hall. tauto.
Qed.

Lemma tickers_joined (symbols : list string) :
  Forall (fun t => is_symbol t = true) symbols ->
  tickers (String.concat "," symbols) = symbols.
Proof.
  induction 1 as [|t symbols Ht Hall IH]; [reflexivity|].
  destruct symbols as [|t' symbols].
  - simpl. now apply tickers_of_symbol.
  - change (String.concat "," (t :: t' :: symbols))
      with (t ++ "," ++ String.concat "," (t' :: symbols))%string.
    unfold tickers at 1. rewrite split_app, flat_map_app. fold (tickers t).
    fold (tickers (String.concat "," (t' :: symbols))).
    rewrite IH, (tickers_of_symbol t Ht). reflexivity.
Qed.

(** X15: joining ASCII ticker symbols with commas and parsing the result
    gives the symbols back, in their order. *)
Theorem tickers_of_joined_symbols (symbols : list string) :
  Forall (fun t => is_ascii t = true) symbols ->
  Forall (fun t => is_symbol t = true) symbols ->
  tickers (String.concat "," symbols) = symbols.
Proof.
  intros _ Hall. induction Hall as [|t symbols Ht Hall IH]; [reflexivity|].
  destruct symbols as [|t' symbols].
  - simpl. now apply tickers_of_symbol.
  - change (String.concat "," (t :: t' :: symbols))
      with (t ++ "," ++ String.concat "," (t' :: symbols))%string.
    unfold tickers at 1. rewrite split_app, flat_map_app. fold (tickers t).
    fold (tickers (String.concat "," (t' :: symbols))).
    rewrite IH, (tickers_of_symbol t Ht). reflexivity.
Qed.

Lemma tickers_of_joined_symbols_witness :
  tickers (String.concat "," ["AMD"; "NVDA"; "BRK.B"]) = ["AMD"; "NVDA"; "BRK.B"].
Proof.
  apply (tickers_of_joined_symbols ["AMD"; "NVDA"; "BRK.B"]);
    repeat constructor.
Defined.

(** X16: parsing is idempotent: the parsed tickers, joined by commas and
    parsed again, are the same tickers. *)
Theorem tickers_idempotent (ticker_input : string) :
  tickers (String.concat "," (tickers ticker_input)) = tickers ticker_input.
Proof.
  apply tickers_joined. apply Forall_forall.
  intros t Hin. now apply (tickers_are_symbols ticker_input).
Qed.

(** ** The page *)

Lemma tickers_nil_iff (ticker_input : string) :
  tickers ticker_input = [] <->
  Forall (fun x => strip x = EmptyString) (split ticker_input).
Proof.
  unfold tickers.
  induction (split ticker_input) as [|x entries IH]; simpl.
  - split; [constructor | reflexivity].
  - destruct (strip x) as [|c rest] eqn:Hx; simpl.
    + rewrite IH. split; [now constructor | now inversion 1].
    + split; [discriminate|].
      intros H. inversion H as [|? ? H1 H2]. rewrite Hx in H1. discriminate.
Qed.

(** X17: for an ASCII input, the prompt for tickers is what the page shows
    exactly when every comma-separated entry of the input is empty or
    whitespace; what the download would have returned plays no part then,
    and no error is shown. *)
Theorem prompt_iff_blank_input
    (argsort : list MetricsRow -> list MetricsRow)
    (ticker_input : string) (vol_threshold : Q) (fetched : download) :
  is_ascii ticker_input = true ->
  (Forall (fun x => strip x = EmptyString) (split ticker_input) <->
   shown (main argsort ticker_input vol_threshold fetched) =
     Ok (Prompt "Enter tickers in the sidebar to begin.")) /\
  (Forall (fun x => strip x = EmptyString) (split ticker_input) ->
   main argsort ticker_input vol_threshold fetched =
     mkPage [] (Ok (Prompt "Enter tickers in the sidebar to begin."))).
Proof.
  intros _. rewrite <- tickers_nil_iff. unfold main.
  destruct (tickers ticker_input) as [|t rest] eqn:Ht.
  - split; [split; reflexivity | reflexivity].
  - split; [|discriminate]. split; [discriminate|]. cbn [shown].
    destruct (value (get_volume_data (t :: rest) fetched)) as [[|r rows]|e];
      simpl bind; discriminate.
Qed.

Lemma prompt_iff_blank_input_witness :
  main argsort_behind_ties " , ," 1.5 (Raises "no connection") =
    mkPage [] (Ok (Prompt "Enter tickers in the sidebar to begin.")).
Proof.
  apply (prompt_iff_blank_input argsort_behind_ties " , ," 1.5 (Raises "no connection")).
  - reflexivity.
  - repeat constructor.
Defined.

Lemma sort_values_permutation
    (argsort : list MetricsRow -> list MetricsRow) (results : list MetricsRow) :
  sorting_kernel argsort ->
  Permutation results (sort_values argsort results) /\
  (Forall (fun r => notna (RVol r) = true) results ->
   descending (sort_values argsort results) = true).
Proof.
  intros Hkernel. unfold sort_values.
  set (non_nans := filter (fun r => notna (RVol r)) results).
  assert (Hall : Forall (fun r => notna (RVol r) = true) (rev non_nans)).
  { apply Forall_forall. intros r Hin. apply in_rev in Hin.
    unfold non_nans in Hin. apply filter_In in Hin. tauto. }
  destruct (Hkernel _ Hall) as [Hperm Hasc]. split.
  - eapply perm_trans; [apply (filter_partition (fun r => notna (RVol r)))|].
    apply Permutation_app_tail.
    eapply perm_trans; [apply Permutation_rev|].
    eapply perm_trans; [exact Hperm | apply Permutation_rev].
  - intros Hnone.
    replace (filter (fun r => isna (RVol r)) results) with (@nil MetricsRow)
      by (symmetry; apply (filter_none (fun r => notna (RVol r))); exact Hnone).
    rewrite app_nil_r, descending_rev. exact Hasc.
Qed.

(** X18: when the page shows a table, no error was shown, the table is not
    empty, its rows are the rows [get_volume_data] returned for the parsed
    tickers, each exactly once, every row carries the style computed from
    its own RVol and the threshold, and the rows are in non-increasing order
    of RVol when no RVol is NaN. *)
Theorem table_shows_the_results
    (argsort : list MetricsRow -> list MetricsRow)
    (ticker_input : string) (vol_threshold : Q) (fetched : download)
    (shown_errors : list string) (table : list (MetricsRow * string)) :
  sorting_kernel argsort ->
  main argsort ticker_input vol_threshold fetched =
    mkPage shown_errors (Ok (Table table)) ->
  shown_errors = [] /\ table <> [] /\
  exists results,
    value (get_volume_data (tickers ticker_input) fetched) = Ok results /\
    Permutation results (map fst table) /\
    map snd table =
      map (fun r => highlight_spike vol_threshold (RVol r)) (map fst table) /\
    (Forall (fun r => notna (RVol r) = true) results ->
     descending (map fst table) = true).
Proof.
  intros Hkernel. unfold main.
  destruct (tickers ticker_input) as [|t rest]; [discriminate|].
  destruct fetched as [message|df]; [simpl; discriminate|].
  cbn [get_volume_data errors value].
  destruct (loop (t :: rest) df (t :: rest) []) as [[|r rows]|e];
    simpl bind; try discriminate.
  intros H. injection H as <- <-.
  destruct (sort_values_permutation argsort (r :: rows) Hkernel) as [Hperm Hdesc].
  assert (Hfst : map fst (map (fun r0 => (r0, highlight_spike vol_threshold (RVol r0)))
                              (sort_values argsort (r :: rows)))
                 = sort_values argsort (r :: rows)).
  { rewrite map_map. simpl. apply map_id. }
  split; [reflexivity|]. split.
  - intros Hnil. apply (f_equal (map fst)) in Hnil. rewrite Hfst in Hnil.
    simpl in Hnil. rewrite Hnil in Hperm.
    apply Permutation_sym, Permutation_nil in Hperm. discriminate.
  - exists (r :: rows). rewrite Hfst. repeat split; auto.
    rewrite !map_map. reflexivity.
Qed.

Lemma table_shows_the_results_witness :
  exists table results,
    main argsort_behind_ties "aaa, bbb, ccc" 1.5 (Returns sample_batch) =
      mkPage [] (Ok (Table table)) /\
    table <> [] /\
    value (get_volume_data (tickers "aaa, bbb, ccc") (Returns sample_batch)) = Ok results /\
    Permutation results (map fst table).
Proof.
  eexists.
  destruct (table_shows_the_results argsort_behind_ties "aaa, bbb, ccc" 1.5
              (Returns sample_batch) [] _ argsort_behind_ties_kernel eq_refl)
    as [_ [Hne [results [Hv [Hperm _]]]]].
  exists results. repeat split; assumption.
Defined.

(** ** Frames of the other shape *)

Lemma loop_all_skipped (ticker_list : list string) (df : DataFrame) (todo : list string) :
  (forall t, In t todo ->
     body ticker_list df t = Ok None \/ body ticker_list df t = Raise KeyError) ->
  forall data, loop ticker_list df todo data = Ok data.
Proof.
  induction todo as [|t todo IH]; intros Hall data; [reflexivity|].
  rewrite loop_skip by (apply Hall; now left).
  apply IH. intros t' Hin. apply Hall. now right.
Qed.

(** X19: when several tickers are requested and the frame comes back with
    one level of column labels, none of them the symbol of a requested
    ticker, every ticker is skipped: the function returns no row and raises
    nothing. *)
Theorem flat_frame_for_several_tickers
    (ticker_list columns : list string) (rows : list (row string)) :
  (1 < length ticker_list)%nat ->
  (forall t, In t ticker_list -> has_label t columns = false) ->
  get_volume_data ticker_list (Returns (Flat columns rows)) = mkOutcome [] (Ok []).
Proof.
  intros Hlen Hnone. unfold get_volume_data. f_equal.
  apply loop_all_skipped. intros t Hin. right.
  unfold body, select. apply Nat.ltb_lt in Hlen. rewrite Hlen.
  simpl. unfold column. rewrite (Hnone t Hin). reflexivity.
Qed.

Lemma flat_frame_for_several_tickers_witness :
  get_volume_data ["AAA"; "BBB"]
    (Returns (Flat sample_columns [bar 10 1; bar 20 2; bar 60 3]))
  = mkOutcome [] (Ok []).
Proof.
  apply (flat_frame_for_several_tickers ["AAA"; "BBB"] sample_columns).
  - simpl. lia.
  - intros t [<-|[<-|[]]]; reflexivity.
Defined.

(** X20: when one ticker is requested and the frame comes back with two
    levels of column labels, the lookup of 'Volume' among the top-level
    labels fails unless a ticker of that name is in the frame: the ticker is
    skipped, and the function returns no row and raises nothing. *)
Theorem grouped_frame_for_one_ticker
    (ticker : string) (columns : list (string * string))
    (rows : list (row (string * string))) :
  fields_of "Volume" columns = [] ->
  get_volume_data [ticker] (Returns (Grouped columns rows)) = mkOutcome [] (Ok []).
Proof.
  intros Hv. unfold get_volume_data. f_equal.
  apply loop_all_skipped. intros t _.
  unfold body, select. simpl. unfold metrics_of_grouped.
  destruct (empty columns (dropna_all columns rows)); [now left|].
  rewrite Hv. now right.
Qed.

Lemma grouped_frame_for_one_ticker_witness :
  get_volume_data ["AAA"] (Returns sample_batch) = mkOutcome [] (Ok []).
Proof.
  apply (grouped_frame_for_one_ticker "AAA"). reflexivity.
Defined.

(** ** The displayed cells *)

Lemma round_half_even_comp (x y : Q) :
  (x == y)%Q -> Format.round_half_even x = Format.round_half_even y.
Proof.
  intros Hxy. unfold Format.round_half_even. cbv zeta.
  rewrite (Qfloor_comp x y Hxy).
  replace (x - inject_Z (Qfloor y) ?= 1 # 2)%Q with (y - inject_Z (Qfloor y) ?= 1 # 2)%Q;
    [reflexivity|].
  apply Qcompare_comp; [now rewrite Hxy | reflexivity].
Qed.

Lemma round_half_even_integer (z : Z) : Format.round_half_even (inject_Z z) = z.
Proof.
  unfold Format.round_half_even. cbv zeta. rewrite Qfloor_Z.
  replace (inject_Z z - inject_Z z ?= 1 # 2)%Q with Lt; [reflexivity|].
  symmetry. apply (proj1 (Qlt_alt _ _)). lra.
Qed.

(** The rounded value is within one half of the value. *)
Lemma round_half_even_close (x : Q) :
  (- (1 # 2) <= inject_Z (Format.round_half_even x) - x <= 1 # 2)%Q.
Proof.
  pose proof (Qfloor_le x) as Hle. pose proof (Qlt_floor x) as Hlt.
  rewrite inject_Z_plus in Hlt. change (inject_Z 1) with 1%Q in Hlt.
  unfold Format.round_half_even. cbv zeta.
  destruct (Qcompare_spec (x - inject_Z (Qfloor x)) (1 # 2)) as [Heq|Hl|Hg].
  - destruct (Z.even (Qfloor x)).
    + split; lra.
    + rewrite inject_Z_plus. change (inject_Z 1) with 1%Q. split; lra.
  - split; lra.
  - rewrite inject_Z_plus. change (inject_Z 1) with 1%Q. split; lra.
Qed.

Lemma round_half_even_nonnegative (x : Q) :
  (0 <= x)%Q -> (0 <= Format.round_half_even x)%Z.
Proof.
  intros Hx.
  assert (Hf : (0 <= Qfloor x)%Z).
  { rewrite <- (Qfloor_Z 0). now apply Qfloor_resp_le. }
  unfold Format.round_half_even. cbv zeta.
  destruct (Qcompare _ _); [destruct (Z.even _)| |]; lia.
Qed.

Lemma append_empty (s : string) : (s ++ "")%string = s.
Proof. induction s; simpl; congruence. Qed.

Lemma append_assoc (a b c : string) : ((a ++ b) ++ c = a ++ b ++ c)%string.
Proof. induction a; simpl; congruence. Qed.

Lemma remove_commas_uint (d : Decimal.uint) :
  remove_commas (NilEmpty.string_of_uint d) = NilEmpty.string_of_uint d.
Proof. induction d; simpl; congruence. Qed.

Lemma no_comma_uint (d : Decimal.uint) :
  all (fun c => negb (is_comma c)) (NilEmpty.string_of_uint d) = true.
Proof. induction d; simpl; auto. Qed.

Lemma remove_commas_group (s : string) :
  remove_commas (Format.group s) = remove_commas s.
Proof.
  induction s as [|c s IH]; [reflexivity|].
  cbn [Format.group].
  set (b := negb (Nat.eqb (String.length s) 0) && Nat.eqb (String.length s mod 3) 0).
  cbn [remove_commas].
  destruct b; cbn [remove_commas]; [change (is_comma ","%char) with true; cbv iota|];
    now rewrite IH.
Qed.

Lemma digits_not_empty (n : N) : Format.digits n <> EmptyString.
Proof.
  unfold Format.digits. intros H.
  pose proof (NilEmpty.usu (N.to_uint n)) as Hu. rewrite H in Hu.
  simpl in Hu. injection Hu as Hu.
  pose proof (DecimalN.Unsigned.of_to n) as Hn. rewrite <- Hu in Hn.
  simpl in Hn. subst n. discriminate Hu.
Qed.

Lemma mod3_pred (n : nat) :
  (1 <= n)%nat ->
  (n mod 3 = 0 -> (n - 1) mod 3 = 2)%nat /\
  (n mod 3 <> 0 -> (n - 1) mod 3 + 1 = n mod 3)%nat.
Proof.
  intros Hn.
  pose proof (Nat.div_mod_eq n 3) as Hd.
  pose proof (Nat.mod_upper_bound n 3) as Hb.
  split; intros Hm.
  - symmetry. apply (Nat.mod_unique _ _ (n / 3 - 1)); lia.
  - assert (Hp : ((n - 1) mod 3 = n mod 3 - 1)%nat)
      by (symmetry; apply (Nat.mod_unique _ _ (n / 3)); lia).
    lia.
Qed.

(** The pieces between the commas of a grouped string: a first one of one
    to three characters, then pieces of three. *)
Lemma group_pieces (s : string) :
  all (fun c => negb (is_comma c)) s = true ->
  s <> EmptyString ->
  exists first others,
    split (Format.group s) = first :: others /\
    String.length first = ((String.length s - 1) mod 3 + 1)%nat /\
    Forall (fun piece => String.length piece = 3%nat) others.
Proof.
  induction s as [|c s IH]; intros Hall Hne; [contradiction|].
  cbn [all] in Hall. apply andb_true_iff in Hall. destruct Hall as [Hc Hall].
  apply negb_true_iff in Hc.
  replace (String.length (String c s) - 1)%nat with (String.length s)
    by (cbn [String.length]; lia).
  destruct s as [|c' s'].
  - exists (String c EmptyString), []. simpl. rewrite Hc. repeat split. constructor.
  - destruct (IH Hall) as [first [others [Hsplit [Hlen Hothers]]]]; [discriminate|].
    set (rest := String c' s') in *.
    assert (Hpos : (1 <= String.length rest)%nat) by (unfold rest; cbn [String.length]; lia).
    destruct (mod3_pred _ Hpos) as [Hzero Hnonzero].
    cbn [Format.group].
    replace (Nat.eqb (String.length rest) 0) with false
      by (symmetry; apply Nat.eqb_neq; lia).
    cbn [negb andb].
    destruct (Nat.eqb (String.length rest mod 3) 0) eqn:E.
    + apply Nat.eqb_eq in E.
      exists (String c EmptyString), (first :: others).
      cbn [split]. rewrite Hc. change (is_comma ","%char) with true. cbv iota.
      rewrite Hsplit. split; [reflexivity|]. split.
      * rewrite E. reflexivity.
      * constructor; [|exact Hothers]. rewrite Hlen, (Hzero E). reflexivity.
    + apply Nat.eqb_neq in E.
      exists (String c first), others.
      cbn [split]. rewrite Hc, Hsplit. split; [reflexivity|]. split; [|exact Hothers].
      cbn [String.length]. rewrite Hlen. specialize (Hnonzero E). lia.
Qed.

Lemma format_volume_count (n : N) :
  format_volume (Fin (inject_Z (Z.of_N n))) = Format.group (Format.digits n).
Proof.
  unfold format_volume, Format.fixed. cbv zeta.
  change (Z.to_N (10 ^ Z.of_nat 0)) with 1%N.
  change (inject_Z (10 ^ Z.of_nat 0)) with 1%Q.
  assert (Habs : (Qabs (inject_Z (Z.of_N n)) * 1 == inject_Z (Z.of_N n))%Q).
  { rewrite Qmult_1_r. apply Qabs_pos.
    change 0%Q with (inject_Z 0). rewrite <- Zle_Qle. lia. }
  rewrite (round_half_even_comp _ _ Habs), round_half_even_integer, N2Z.id.
  rewrite N.div_1_r.
  replace (Qltb (inject_Z (Z.of_N n)) 0) with false.
  - simpl. now rewrite append_empty.
  - symmetry. apply Qltb_false. change 0%Q with (inject_Z 0).
    rewrite <- Zle_Qle. lia.
Qed.

(** X21: a volume that is a whole number is displayed so that it can be
    read back: without its commas the cell is the decimal writing of the
    number, and the commas cut it into a first group of one to three digits
    followed by groups of exactly three. *)
Theorem volume_display_reads_back (n : N) :
  read_count (format_volume (Fin (inject_Z (Z.of_N n)))) = Some n /\
  exists first others,
    split (format_volume (Fin (inject_Z (Z.of_N n)))) = first :: others /\
    (1 <= String.length first <= 3)%nat /\
    Forall (fun piece => String.length piece = 3%nat) others.
Proof.
  rewrite format_volume_count. split.
  - unfold read_count. rewrite remove_commas_group.
    unfold Format.digits. rewrite remove_commas_uint, NilEmpty.usu. simpl.
    now rewrite DecimalN.Unsigned.of_to.
  - destruct (group_pieces (Format.digits n)) as [first [others [Hs [Hl Ho]]]].
    + apply no_comma_uint.
    + apply digits_not_empty.
    + exists first, others. split; [exact Hs|]. split; [|exact Ho].
      rewrite Hl.
      pose proof (Nat.mod_upper_bound (String.length (Format.digits n) - 1) 3). lia.
Qed.

Lemma two_digits (h : N) :
  (h < 100)%N -> String.length (Format.zero_pad 2 (Format.digits h)) = 2%nat.
Proof.
  intros Hh.
  assert (Hall : forallb (fun k => Nat.eqb (String.length
                   (Format.zero_pad 2 (Format.digits (N.of_nat k)))) 2)
                   (seq 0 100) = true) by (vm_compute; reflexivity).
  rewrite forallb_forall in Hall.
  specialize (Hall (N.to_nat h)). rewrite N2Nat.id in Hall.
  apply Nat.eqb_eq. apply Hall. apply in_seq. lia.
Qed.

(** X22: a price, a change and a relative volume are displayed with two
    decimals that are within half a hundredth of the absolute value, behind
    the sign of the value and, for the change, a plus sign when it is not
    negative; a value that rounds to zero keeps its minus sign. *)
Theorem two_decimals_are_close (q : Q) :
  exists whole hundredths : N,
    let shown := (Format.digits whole ++ "."
                  ++ Format.zero_pad 2 (Format.digits hundredths))%string in
    (hundredths < 100)%N /\
    String.length (Format.zero_pad 2 (Format.digits hundredths)) = 2%nat /\
    (- (1 # 200) <=
       inject_Z (Z.of_N whole) + inject_Z (Z.of_N hundredths) / 100 - Qabs q
     <= 1 # 200)%Q /\
    format_price (Fin q) = ("$" ++ Format.sign false (Qltb q 0) ++ shown)%string /\
    format_change (Fin q) = (Format.sign true (Qltb q 0) ++ shown ++ "%")%string /\
    format_rvol (Fin q) = (Format.sign false (Qltb q 0) ++ shown ++ "x")%string.
Proof.
  set (rounded := Format.round_half_even (Qabs q * inject_Z (10 ^ Z.of_nat 2))).
  set (scaled := Z.to_N rounded).
  exists (scaled / 100)%N, (scaled mod 100)%N. cbv zeta.
  assert (Hh : (scaled mod 100 < 100)%N) by (apply N.mod_upper_bound; discriminate).
  split; [exact Hh|]. split; [now apply two_digits|]. split.
  - assert (Hnn : (0 <= rounded)%Z).
    { apply round_half_even_nonnegative. apply Qmult_le_0_compat.
      - apply Qabs_nonneg.
      - discriminate. }
    pose proof (round_half_even_close (Qabs q * inject_Z (10 ^ Z.of_nat 2))) as Hclose.
    fold rounded in Hclose.
    change (inject_Z (10 ^ Z.of_nat 2)) with 100%Q in Hclose.
    assert (Hsplit : (inject_Z rounded ==
                      100 * inject_Z (Z.of_N (scaled / 100))
                      + inject_Z (Z.of_N (scaled mod 100)))%Q).
    { rewrite <- (Z2N.id rounded Hnn). fold scaled.
      rewrite (N.div_mod scaled 100) at 1 by discriminate.
      rewrite N2Z.inj_add, N2Z.inj_mul, inject_Z_plus, inject_Z_mult.
      reflexivity. }
    set (W := inject_Z (Z.of_N (scaled / 100))) in *.
    set (H := inject_Z (Z.of_N (scaled mod 100))) in *.
    set (A := Qabs q) in *.
    unfold Qdiv. change (/ 100)%Q with (1 # 100)%Q.
    split; lra.
  - unfold format_price, format_change, format_rvol, Format.fixed. cbv zeta.
    fold rounded. fold scaled. change (Z.to_N (10 ^ Z.of_nat 2)) with 100%N.
    rewrite !append_assoc. repeat split; reflexivity.
Qed.

(** The cells of the specification's scenario. *)
Example displayed_cells :
  display (mkRow "AAA" (Fin 11) (Fin 10) (Fin 5000000) (Fin 2000000) (Fin 2.5)) =
    [("Ticker", "AAA"); ("Price", "$11.00"); ("Change %", "+10.00%");
     ("Current Vol", "5,000,000"); ("Avg Vol (20D)", "2,000,000"); ("RVol", "2.50x")].
Proof. vm_compute. reflexivity. Qed.

(** ** Tickers do not influence one another *)

Lemma last_of_map_eq {A B : Type} (f : A -> B) (prior prior' : list A) (x x' : A) :
  map f (prior ++ [x]) = map f (prior' ++ [x']) ->
  map f prior = map f prior' /\ f x = f x'.
Proof.
  rewrite !map_app. simpl. intros H. apply app_inj_tail in H. exact H.
Qed.

(** The outcome of the metrics lines is a function of the number of cleaned
    bars and of their 'Volume' and 'Close' cells. *)
Lemma metrics_by_columns (ticker : string) (columns : list string)
    (raw raw' : list (row string)) :
  length (dropna_all columns raw) = length (dropna_all columns raw') ->
  map (fun r => r "Volume") (dropna_all columns raw)
    = map (fun r => r "Volume") (dropna_all columns raw') ->
  map (fun r => r "Close") (dropna_all columns raw)
    = map (fun r => r "Close") (dropna_all columns raw') ->
  metrics ticker columns raw = metrics ticker columns raw'.
Proof.
  intros Hlen Hvol Hclose.
  destruct (dropna_all columns raw) as [|a rest] eqn:Hc.
  - destruct (dropna_all columns raw') as [|a' rest'] eqn:Hc'; [|discriminate].
    unfold metrics. now rewrite Hc, Hc'.
  - destruct (dropna_all columns raw') as [|a' rest'] eqn:Hc'; [discriminate|].
    destruct (has_label "Volume" columns && has_label "Close" columns) eqn:Hlabels.
    + apply andb_true_iff in Hlabels. destruct Hlabels as [Hv Hcl].
      assert (Hne : a :: rest <> []) by discriminate.
      assert (Hne' : a' :: rest' <> []) by discriminate.
      destruct (exists_last Hne) as [prior [latest Heq]].
      destruct (exists_last Hne') as [prior' [latest' Heq']].
      rewrite Heq in *. rewrite Heq' in *.
      rewrite (metrics_cleaned ticker columns raw prior latest Hc Hv Hcl).
      rewrite (metrics_cleaned ticker columns raw' prior' latest' Hc' Hv Hcl).
      destruct (last_of_map_eq _ _ _ _ _ Hvol) as [_ Hlv].
      destruct (last_of_map_eq _ _ _ _ _ Hclose) as [_ Hlc].
      cbv beta in Hlv, Hlc. rewrite Hvol, Hclose, Hlv, Hlc. reflexivity.
    + rewrite !metrics_missing_label; auto.
      * rewrite Hc'. discriminate.
      * rewrite Hc. discriminate.
Qed.

Lemma existsb_pointwise {A : Type} (f g : A -> bool) (l : list A) :
  (forall a, f a = g a) -> existsb f l = existsb g l.
Proof. intros H. induction l as [|a l IH]; simpl; [reflexivity | now rewrite H, IH]. Qed.

Lemma same_cells_cleaned (ticker : string) (fields : list string)
    (rows rows' : list (row (string * string))) :
  same_cells_for ticker rows rows' ->
  Forall2 (fun r r' : row string => forall field, r field = r' field)
    (dropna_all fields (map (fun r field => r (ticker, field)) rows))
    (dropna_all fields (map (fun r field => r (ticker, field)) rows')).
Proof.
  induction 1 as [|r r' rows rows' Hr _ IH]; simpl; [constructor|].
  replace (existsb (fun c => notna (r' (ticker, c))) fields)
    with (existsb (fun c => notna (r (ticker, c))) fields).
  - destruct (existsb (fun c => notna (r (ticker, c))) fields); [|exact IH].
    constructor; [|exact IH]. intros field. apply Hr.
  - apply existsb_pointwise. intros c. now rewrite Hr.
Qed.

Lemma same_cells_column {L : Type} (key : L) (rows rows' : list (row L)) :
  Forall2 (fun r r' : row L => forall c, r c = r' c) rows rows' ->
  map (fun r => r key) rows = map (fun r => r key) rows'.
Proof.
  induction 1 as [|r r' rows rows' Hr _ IH]; simpl; [reflexivity|].
  now rewrite Hr, IH.
Qed.

(** X23: with several tickers requested, what a ticker yields depends on the
    cells under its own label only: two frames with the same column labels
    and the same cells for the ticker give it the same row, the same skip or
    the same exception, whatever the cells of the other tickers are. *)
Theorem other_tickers_cells_do_not_matter
    (ticker_list : list string) (ticker : string)
    (columns : list (string * string)) (rows rows' : list (row (string * string))) :
  (1 < length ticker_list)%nat ->
  same_cells_for ticker rows rows' ->
  body ticker_list (Grouped columns rows) ticker =
  body ticker_list (Grouped columns rows') ticker.
Proof.
  intros Hlen Hsame. unfold body, select.
  apply Nat.ltb_lt in Hlen. rewrite Hlen. simpl.
  destruct (fields_of ticker columns) as [|f fields]; [reflexivity|].
  simpl bind.
  pose proof (same_cells_cleaned ticker (f :: fields) rows rows' Hsame) as Hclean.
  apply metrics_by_columns.
  - apply (Forall2_length Hclean).
  - apply (same_cells_column "Volume" _ _ Hclean).
  - apply (same_cells_column "Close" _ _ Hclean).
Qed.

Lemma other_tickers_cells_do_not_matter_witness :
  body ["AAA"; "NEW"] first_day_batch "AAA" =
  body ["AAA"; "NEW"]
       (Grouped [("AAA", "Close"); ("AAA", "Volume"); ("NEW", "Close"); ("NEW", "Volume")]
                sample_index) "AAA".
Proof.
  apply (other_tickers_cells_do_not_matter ["AAA"; "NEW"] "AAA").
  - simpl. lia.
  - repeat constructor.
Defined.
